(** * tests-e2e/erc20_balances.py: selector, address and EVM call construction

    A shallow embedding of the end-to-end script [erc20_balances.py] and of
    the library operations it is built from.  Python [str] values are
    modelled by [string] (the characters used by the script are ASCII, so a
    string is also its UTF-8 encoding), Python [bytes] by [list byte], Python
    [int] by [Z], and a raised exception by [None]. *)

From Stdlib Require Import ZArith List Lia.
From Stdlib.Strings Require Import String Ascii Byte.
From stdpp Require Import gmap strings list.

Set Warnings "-register-all".

Local Open Scope string_scope.
Local Open Scope list_scope.
Local Open Scope Z_scope.

(** ** Python built-ins used by the script *)

Module Py.

Definition bytes := list byte.

Definition byte_of_Z (z : Z) : byte :=
  match Byte.of_N (Z.to_N (z mod 256)) with
  | Some b => b
  | None => x00
  end.

Definition Z_of_byte (b : byte) : Z := Z.of_N (Byte.to_N b).

(** [s.encode('utf-8')] on the ASCII strings of the script. *)
Definition encode_utf8 (s : string) : bytes := list_byte_of_string s.

Definition hex_char (d : Z) : ascii :=
  if d <? 10 then ascii_of_N (Z.to_N (48 + d))
  else ascii_of_N (Z.to_N (87 + d)).

(** Digits of a non-negative number, most significant first; the recursion
    is bounded by the bit length of the number. *)
Fixpoint hex_digits_from (fuel : nat) (n : Z) (acc : string) : string :=
  match fuel with
  | O => acc
  | S fuel' =>
      let acc' := String (hex_char (n mod 16)) acc in
      if n / 16 =? 0 then acc' else hex_digits_from fuel' (n / 16) acc'
  end.

Definition hex_digits (n : Z) : string :=
  hex_digits_from (S (Z.to_nat (Z.log2 n))) n "".

(** [hex(n)]: ["0x.."] for [n >= 0] and ["-0x.."] for [n < 0]. *)
Definition hex (n : Z) : string :=
  if n <? 0 then "-0x" +:+ hex_digits (- n) else "0x" +:+ hex_digits n.

(** [s[k:]] *)
Fixpoint drop_str (k : nat) (s : string) : string :=
  match k, s with
  | O, _ => s
  | S _, EmptyString => EmptyString
  | S k', String _ s' => drop_str k' s'
  end.

Fixpoint repeat_char (c : ascii) (k : nat) : string :=
  match k with
  | O => EmptyString
  | S k' => String c (repeat_char c k')
  end.

(** [s.zfill(width)]: zeros are inserted after a leading sign. *)
Definition zfill (width : nat) (s : string) : string :=
  let fill := repeat_char "0" (width - String.length s) in
  match s with
  | String c rest =>
      if (Ascii.eqb c "+" || Ascii.eqb c "-")%bool
      then String c (fill +:+ rest)
      else fill +:+ s
  | EmptyString => fill
  end.

Definition is_upper (c : ascii) : bool :=
  let n := N_of_ascii c in ((65 <=? n) && (n <=? 90))%N.

Definition is_lower (c : ascii) : bool :=
  let n := N_of_ascii c in ((97 <=? n) && (n <=? 122))%N.

Definition lower_char (c : ascii) : ascii :=
  if is_upper c then ascii_of_N (N_of_ascii c + 32) else c.

Definition upper_char (c : ascii) : ascii :=
  if is_lower c then ascii_of_N (N_of_ascii c - 32) else c.

Fixpoint map_str (f : ascii -> ascii) (s : string) : string :=
  match s with
  | EmptyString => EmptyString
  | String c s' => String (f c) (map_str f s')
  end.

(** [s.lower()] and [s.upper()], which on the characters met here change
    the ASCII letters only. *)
Definition lower : string -> string := map_str lower_char.
Definition upper : string -> string := map_str upper_char.

(** [b.hex()] *)
Fixpoint bytes_hex (b : bytes) : string :=
  match b with
  | [] => EmptyString
  | x :: b' =>
      String (hex_char (Z_of_byte x / 16))
        (String (hex_char (Z_of_byte x mod 16)) (bytes_hex b'))
  end.

(** [s.startswith(p)] *)
Fixpoint startswith (p s : string) : bool :=
  match p, s with
  | EmptyString, _ => true
  | String a p', String b s' => Ascii.eqb a b && startswith p' s'
  | String _ _, EmptyString => false
  end.

End Py.

(** ** Keccak-256, as computed by [eth_utils.keccak]

    The sponge over Keccak-f[1600] with rate 136 bytes, the original Keccak
    padding (domain byte [0x01]) and a 32-byte digest.  The state is the
    list of the 25 lanes, lane [(x, y)] at index [x + 5 * y]. *)

Module Keccak.

Import Py.

Definition lane_mask : Z := 0xFFFFFFFFFFFFFFFF.

Definition rotl64 (v : Z) (n : Z) : Z :=
  Z.land (Z.lor (Z.shiftl v n) (Z.shiftr v (64 - n))) lane_mask.

Definition lane (st : list Z) (x y : nat) : Z :=
  nth (x mod 5 + 5 * (y mod 5))%nat st 0.

Definition rotation_offsets : list Z :=
  [ 0;  1; 62; 28; 27;
   36; 44;  6; 55; 20;
    3; 10; 43; 25; 39;
   41; 45; 15; 21;  8;
   18;  2; 61; 56; 14].

Definition round_constants : list Z :=
  [0x0000000000000001; 0x0000000000008082; 0x800000000000808A;
   0x8000000080008000; 0x000000000000808B; 0x0000000080000001;
   0x8000000080008081; 0x8000000000008009; 0x000000000000008A;
   0x0000000000000088; 0x0000000080008009; 0x000000008000000A;
   0x000000008000808B; 0x800000000000008B; 0x8000000000008089;
   0x8000000000008003; 0x8000000000008002; 0x8000000000000080;
   0x000000000000800A; 0x800000008000000A; 0x8000000080008081;
   0x8000000000008080; 0x0000000080000001; 0x8000000080008008].

Definition coords : list (nat * nat) :=
  map (fun i => (i mod 5, i / 5)%nat) (seq 0 25).

Definition theta (st : list Z) : list Z :=
  let c := fun x =>
    Z.lxor (lane st x 0) (Z.lxor (lane st x 1) (Z.lxor (lane st x 2)
      (Z.lxor (lane st x 3) (lane st x 4)))) in
  let d := fun x => Z.lxor (c (x + 4)%nat) (rotl64 (c (x + 1)%nat) 1) in
  map (fun '(x, y) => Z.lxor (lane st x y) (d x)) coords.

(** rho and pi together: the lane written at [(x, y)] is the lane read at
    [(x + 3y, x)], rotated by the offset of the place it is read from. *)
Definition rho_pi (st : list Z) : list Z :=
  map (fun '(x, y) =>
         let x0 := ((x + 3 * y) mod 5)%nat in
         let y0 := x in
         rotl64 (lane st x0 y0) (nth (x0 + 5 * y0)%nat rotation_offsets 0))
      coords.

Definition chi (st : list Z) : list Z :=
  map (fun '(x, y) =>
         Z.lxor (lane st x y)
           (Z.land (Z.lxor (lane st (x + 1) y) lane_mask)
                   (lane st (x + 2) y)))
      coords.

Definition iota (rc : Z) (st : list Z) : list Z :=
  match st with
  | l0 :: rest => Z.lxor l0 rc :: rest
  | [] => []
  end.

Definition round (st : list Z) (rc : Z) : list Z :=
  iota rc (chi (rho_pi (theta st))).

Definition keccak_f (st : list Z) : list Z :=
  fold_left round round_constants st.

Definition rate : nat := 136.

(** XOR one byte into the state at byte position [pos]. *)
Definition xor_byte (st : list Z) (pos : nat) (b : Z) : list Z :=
  alter (fun l => Z.lxor l (Z.shiftl b (8 * Z.of_nat (pos mod 8))))
    (pos / 8)%nat st.

Fixpoint absorb (st : list Z) (pos : nat) (msg : bytes) : list Z * nat :=
  match msg with
  | [] => (st, pos)
  | b :: rest =>
      let st' := xor_byte st pos (Z_of_byte b) in
      if (S pos =? rate)%nat then absorb (keccak_f st') 0 rest
      else absorb st' (S pos) rest
  end.

Definition state_byte (st : list Z) (i : nat) : byte :=
  byte_of_Z (Z.shiftr (nth (i / 8)%nat st 0) (8 * Z.of_nat (i mod 8))).

Definition squeeze (st : list Z) (len : nat) : bytes :=
  map (state_byte st) (seq 0 len).

Definition sponge256 (domain : Z) (msg : bytes) : bytes :=
  let '(st, pos) := absorb (repeat 0 25) 0 msg in
  let st := xor_byte st pos domain in
  let st := xor_byte st (rate - 1) 0x80 in
  squeeze (keccak_f st) 32.

Definition keccak256 (msg : bytes) : bytes := sponge256 0x01 msg.

End Keccak.

(** ** The [eth_utils] functions behind [to_checksum_address] *)

Module EthUtils.

Import Py.

(** [keccak(text=s)] hashes the UTF-8 encoding of [s]. *)
Definition keccak_text (text : string) : bytes :=
  Keccak.keccak256 (encode_utf8 text).

Definition is_0x_prefixed (value : string) : bool :=
  startswith "0x" value || startswith "0X" value.

Definition remove_0x_prefix (value : string) : string :=
  if is_0x_prefixed value then drop_str 2 value else value.

Definition add_0x_prefix (value : string) : string :=
  if is_0x_prefixed value then value else "0x" +:+ value.

(** [int(c, 16)] on one character. *)
Definition hex_value (c : ascii) : option Z :=
  let n := Z.of_N (N_of_ascii c) in
  if (48 <=? n) && (n <=? 57) then Some (n - 48)
  else if (97 <=? n) && (n <=? 102) then Some (n - 87)
  else if (65 <=? n) && (n <=? 70) then Some (n - 55)
  else None.

Definition is_hex_digit (c : ascii) : bool :=
  match hex_value c with Some _ => true | None => false end.

Fixpoint all_str (p : ascii -> bool) (s : string) : bool :=
  match s with
  | EmptyString => true
  | String c s' => p c && all_str p s'
  end.

(** [is_hexstr]: a non-empty text fully matching [(0[xX])?[0-9a-fA-F]*]. *)
Definition is_hexstr (value : string) : bool :=
  match value with
  | EmptyString => false
  | _ => all_str is_hex_digit (remove_0x_prefix value)
  end.

Definition nonempty (s : string) : bool :=
  match s with EmptyString => false | _ => true end.

(** [hexstr_if_str(to_hex, value)] for a [str] argument: a ValueError
    unless the value is empty after its prefix or a hex string; then
    [to_hex(hexstr=value)], that is [add_0x_prefix(value.lower())]. *)
Definition hexstr_if_str_to_hex (value : string) : option string :=
  if nonempty (remove_0x_prefix value) && negb (is_hexstr value) then None
  else Some (add_0x_prefix (lower value)).

(** [is_hex_address]: a full match of [(0x)?[0-9a-f]{40}], case ignored. *)
Definition is_hex_address (value : string) : bool :=
  let unprefixed := remove_0x_prefix value in
  (String.length unprefixed =? 40)%nat && all_str is_hex_digit unprefixed.

(** [is_address] on a [str]: the binary form needs a [bytes] value. *)
Definition is_address (value : string) : bool := is_hex_address value.

Definition to_normalized_address (value : string) : option string :=
  hex_address ← lower <$> hexstr_if_str_to_hex value;
  if is_address hex_address then Some hex_address else None.

(** [encode_hex(b)] *)
Definition encode_hex (b : bytes) : string := add_0x_prefix (bytes_hex b).

(** One character of the checksummed form: [norm_address[i].upper()] when
    [int(address_hash[i], 16) > 7], else [norm_address[i]]; an index out
    of range or a non-hex character is an error. *)
Definition checksum_char (norm_address address_hash : string) (i : nat)
  : option ascii :=
  c ← String.get i norm_address;
  h ← String.get i address_hash;
  v ← hex_value h;
  Some (if 7 <? v then upper_char c else c).

Definition to_checksum_address (value : string) : option string :=
  norm_address ← to_normalized_address value;
  let address_hash :=
    encode_hex (keccak_text (remove_0x_prefix norm_address)) in
  chars ← mapM (checksum_char norm_address address_hash) (seq 2 40);
  Some (add_0x_prefix (string_of_list_ascii chars)).

Definition is_checksum_address (value : string) : bool :=
  is_hex_address value
  && bool_decide (to_checksum_address value = Some value).

End EthUtils.

(** ** The argument encoder [eth_abi.encode]

    Type strings are taken in parsed form.  A value is encoded against its
    type as the contract ABI prescribes: static values in 32-byte words,
    dynamic values in the tail behind an offset word in the head. *)

Module EthAbi.

Import Py.

Inductive abi_type : Type :=
| TUint (bits : Z)
| TInt (bits : Z)
| TBool
| TAddress
| TBytesN (size : Z)
| TBytes
| TString
| TArray (item : abi_type)
| TFixedArray (item : abi_type) (size : nat)
| TTuple (components : list abi_type).

(** The Python values accepted as arguments. *)
Inductive abi_value : Type :=
| VInt (z : Z)
| VBool (b : bool)
| VBytes (b : bytes)
| VStr (s : string)
| VList (items : list abi_value).

Fixpoint is_dynamic (t : abi_type) : bool :=
  match t with
  | TBytes | TString | TArray _ => true
  | TFixedArray item _ => is_dynamic item
  | TTuple components => existsb is_dynamic components
  | _ => false
  end.

Definition zpad_left (n : nat) (b : bytes) : bytes :=
  repeat x00 (n - length b) ++ b.

Definition zpad_right (n : nat) (b : bytes) : bytes :=
  b ++ repeat x00 (n - length b).

Definition ceil32 (n : nat) : nat := ((n + 31) / 32 * 32)%nat.

(** The 32-byte big-endian word of [v] modulo [2^256]. *)
Definition encode_uint_256 (v : Z) : bytes :=
  map (fun i => byte_of_Z (Z.shiftr v (8 * (31 - Z.of_nat i)))) (seq 0 32).

Definition valid_bits (m : Z) : bool :=
  (8 <=? m) && (m <=? 256) && (m mod 8 =? 0).

Fixpoint decode_hex (s : string) : option bytes :=
  match s with
  | EmptyString => Some []
  | String hi (String lo rest) =>
      h ← EthUtils.hex_value hi;
      l ← EthUtils.hex_value lo;
      b ← decode_hex rest;
      Some (byte_of_Z (16 * h + l) :: b)
  | String _ EmptyString => None
  end.

Definition encode_bytestring (b : bytes) : bytes :=
  encode_uint_256 (Z.of_nat (length b)) ++ zpad_right (ceil32 (length b)) b.

(** The tuple layout over already encoded components, each paired with
    the dynamic flag of its type. *)
Definition head_length (chunks : list (bool * bytes)) : nat :=
  list_sum (map (fun c : bool * bytes =>
                   if fst c then 32%nat else length (snd c)) chunks).

Fixpoint head_chunks (head_len offset : nat) (chunks : list (bool * bytes))
  : bytes :=
  match chunks with
  | [] => []
  | (true, e) :: rest =>
      encode_uint_256 (Z.of_nat (head_len + offset))
        ++ head_chunks head_len (offset + length e) rest
  | (false, e) :: rest => e ++ head_chunks head_len offset rest
  end.

Definition tail_chunks (chunks : list (bool * bytes)) : bytes :=
  concat (map (fun c : bool * bytes => if fst c then snd c else []) chunks).

Definition encode_chunks (chunks : list (bool * bytes)) : bytes :=
  head_chunks (head_length chunks) 0 chunks ++ tail_chunks chunks.

Fixpoint encode_value (t : abi_type) (v : abi_value) {struct t}
  : option bytes :=
  match t, v with
  | TUint m, VInt z =>
      if valid_bits m && (0 <=? z) && (z <? 2 ^ m)
      then Some (encode_uint_256 z) else None
  | TInt m, VInt z =>
      if valid_bits m && (- 2 ^ (m - 1) <=? z) && (z <? 2 ^ (m - 1))
      then Some (encode_uint_256 (z mod 2 ^ 256)) else None
  | TBool, VBool b => Some (encode_uint_256 (if b then 1 else 0))
  | TAddress, VStr s =>
      if EthUtils.is_address s
      then zpad_left 32 <$> decode_hex (EthUtils.remove_0x_prefix s)
      else None
  | TAddress, VBytes b =>
      if (length b =? 20)%nat then Some (zpad_left 32 b) else None
  | TBytesN n, VBytes b =>
      if (1 <=? n) && (n <=? 32) && (Z.of_nat (length b) <=? n)
      then Some (zpad_right 32 b) else None
  | TBytes, VBytes b => Some (encode_bytestring b)
  | TString, VStr s => Some (encode_bytestring (encode_utf8 s))
  | TArray item, VList items =>
      encoded ← mapM (encode_value item) items;
      Some (encode_uint_256 (Z.of_nat (length items))
              ++ encode_chunks (map (pair (is_dynamic item)) encoded))
  | TFixedArray item size, VList items =>
      if (length items =? size)%nat
      then encoded ← mapM (encode_value item) items;
           Some (encode_chunks (map (pair (is_dynamic item)) encoded))
      else None
  | TTuple components, VList items =>
      chunks ←
        (fix components_chunks (ts : list abi_type) (vs : list abi_value)
           : option (list (bool * bytes)) :=
           match ts, vs with
           | [], [] => Some []
           | t' :: ts', v' :: vs' =>
               e ← encode_value t' v';
               r ← components_chunks ts' vs';
               Some ((is_dynamic t', e) :: r)
           | _, _ => None
           end) components items;
      Some (encode_chunks chunks)
  | _, _ => None
  end.

(** [encode(types, args)]: the arguments as one tuple. *)
Definition encode (types : list abi_type) (args : list abi_value)
  : option bytes :=
  encode_value (TTuple types) (VList args).

End EthAbi.

(** ** The three pure helpers of the script *)

Import Py.

(** [keccak(text=text)[:4]] *)
Definition func_selector (text : string) : bytes :=
  firstn 4 (EthUtils.keccak_text text).

(** [hex(num)[2:]], [zfill(40)], [to_checksum_address]. *)
Definition num_to_address (num : Z) : option string :=
  let address_hex := drop_str 2 (hex num) in
  let address_hex_padded := zfill 40 address_hex in
  EthUtils.to_checksum_address address_hex_padded.


(** [func_selector(name) + encode(types, args)] *)
Definition encode_input (name : string) (types : list EthAbi.abi_type)
    (args : list EthAbi.abi_value) : option bytes :=
  let function_signature := func_selector name in
  encoded ← EthAbi.encode types args;
  Some (function_signature ++ encoded).

(** The two values the module body computes before it calls the chain. *)
Definition CONTRACT_ADDRESS : option string := num_to_address 2050.

Definition input : option bytes := encode_input "name()" [] [].

(** ** The chain client: [substrateinterface] and [scalecodec]

    The client library and the node behind it are the environment of the
    script.  Every call into them is an operation of type [op X], answered
    by the environment with a value of type [X] or with an exception.  An
    operation receives the state of the objects passed to it and returns
    the state they have afterwards, so that an object changes only through
    the operations it is passed to. *)

Module Substrate.

(** Python values handed to the library as literals. *)
Inductive pyval : Type :=
| PNone
| PInt (z : Z)
| PStr (s : string)
| PList (items : list pyval)
| PDict (entries : list (string * pyval)).

(** [d[key]] on the entries of a dict literal. *)
Fixpoint dict_get (key : string) (entries : list (string * pyval))
  : option pyval :=
  match entries with
  | [] => None
  | (k, v) :: rest => if String.eqb k key then Some v else dict_get key rest
  end.

Inductive KeypairType : Type := ED25519 | SR25519 | ECDSA.

Record Keypair : Type := {
  public_key : bytes;
  private_key : bytes;
  crypto_type : KeypairType
}.

(** ** The type registry of [scalecodec]

    The class [RuntimeConfigurationObject] of the library [scalecodec],
    which is not part of the repository, written out from the library:
    [update_type_registry], [update_type_registry_types] and
    [get_decoder_class].  A type string is looked up as a runtime with
    scale-info metadata has it, without conversion; names are ASCII, a
    dict has no key twice, and a call that raises leaves no registry to
    look at. *)

(** A class attribute: a value of the dict as it is, or the dict
    [{i: v for v, i in entries}] made of the value list of an enum. *)
Inductive attribute : Type :=
| Plain (value : pyval)
| Inverted (entries : list (string * pyval)).

(** A codec class: one the library or a preset provides, known by its
    name, or one made by [type(name, (base,), attributes)]. *)
Inductive decoder_class : Type :=
| Preset (name : string)
| Custom (name : string) (base : decoder_class)
    (attributes : list (string * attribute)).

(** The registry keeps a class, or [None], under a lower-case name. *)
Record RuntimeConfig : Type := {
  types : gmap string (option decoder_class);
  active_spec_version_id : pyval;
  versioning : pyval;
  runtime_upgrades : pyval
}.

(** [d.get(key)] and [d.get(key, fallback)]. *)
Definition dict_get_or (fallback : pyval) (key : string)
    (entries : list (string * pyval)) : pyval :=
  default fallback (dict_get key entries).

(** The truth value of a Python value. *)
Definition truthy (v : pyval) : bool :=
  match v with
  | PNone => false
  | PInt z => negb (z =? 0)
  | PStr s => negb (String.eqb s "")
  | PList items => match items with [] => false | _ => true end
  | PDict entries => match entries with [] => false | _ => true end
  end.

(** The characters [s.strip()] removes. *)
Definition is_space (c : ascii) : bool :=
  let n := N_of_ascii c in
  (((9 <=? n) && (n <=? 13)) || ((28 <=? n) && (n <=? 32)))%N.

Fixpoint last_char (s : string) : option ascii :=
  match s with
  | EmptyString => None
  | String c EmptyString => Some c
  | String _ s' => last_char s'
  end.

Definition first_char (s : string) : option ascii :=
  match s with
  | EmptyString => None
  | String c _ => Some c
  end.

Definition is_char (c : ascii) (o : option ascii) : bool :=
  match o with
  | Some c' => Ascii.eqb c c'
  | None => false
  end.

(** The type strings from which [get_decoder_class] makes a class of its
    own: [Base<Sub>], a tuple [(A, B)], an array [[T; n]]. *)
Definition is_composite (type_string : string) : bool :=
  is_char ">" (last_char type_string)
  || (negb (String.eqb type_string "()")
      && is_char "(" (first_char type_string)
      && is_char ")" (last_char type_string))
  || (is_char "[" (first_char type_string)
      && is_char "]" (last_char type_string)).

Section Registry.

(** What the library makes of a composite type string that is not
    registered under its own name, if anything. *)
Variable derive :
  gmap string (option decoder_class) -> string -> option decoder_class.

(** [get_decoder_class(type_string)] for a string: the class registered
    under the lower-case name, else what a composite string gives, else
    [None]. *)
Definition get_decoder_class (registry : gmap string (option decoder_class))
    (type_string : string) : option decoder_class :=
  if EthUtils.all_str is_space type_string then None
  else
    match registry !! lower type_string with
    | Some (Some c) => Some c
    | _ =>
        if is_composite type_string then derive registry type_string
        else None
    end.

(** [get_decoder_class(v)] for any value; the outer [None] is an
    exception: a dict gives an inner struct of its items over the
    registered [Struct], a value that is neither a string nor a dict has no
    [strip]. *)
Definition class_of_value (registry : gmap string (option decoder_class))
    (v : pyval) : option (option decoder_class) :=
  match v with
  | PStr type_string => Some (get_decoder_class registry type_string)
  | PDict entries =>
      base ← get_decoder_class registry "Struct";
      Some (Some (Custom "InnerStruct" base
                    [("type_mapping",
                      Plain (PList (map (fun item : string * pyval =>
                                           PList [PStr (fst item); snd item])
                                      entries)))]))
  | _ => None
  end.

(** The class registered for one entry of the dict, or [None] stored in its
    place; the outer [None] is an exception: a base class that is not
    found, a dict without ["type"] or of a type that is not supported. *)
Definition entry_class (registry : gmap string (option decoder_class))
    (type_string : string) (data : pyval) : option (option decoder_class) :=
  match data with
  | PDict entries =>
      base_cls ←
        (if truthy (dict_get_or PNone "base_class" entries)
         then
           found ← class_of_value registry
                     (dict_get_or PNone "base_class" entries);
           match found with
           | Some c => Some (Some c)
           | None => None
           end
         else Some None);
      kind ← dict_get "type" entries;
      match kind with
      | PStr k =>
          if String.eqb k "struct" then
            Some (Some (Custom type_string
                          (default (Preset "Struct") base_cls)
                          [("type_mapping",
                            Plain (dict_get_or PNone "type_mapping" entries))]))
          else if String.eqb k "tuple" then
            Some (Some (Custom type_string
                          (default (Preset "Tuple") base_cls)
                          [("type_mapping",
                            Plain (dict_get_or PNone "type_mapping" entries))]))
          else if String.eqb k "enum" then
            Some (Some (Custom type_string
                          (default (Preset "Enum") base_cls)
                          [("value_list",
                            match dict_get_or PNone "value_list" entries with
                            | PDict values => Inverted values
                            | values => Plain values
                            end);
                           ("type_mapping",
                            Plain (dict_get_or PNone "type_mapping" entries))]))
          else if String.eqb k "set" then
            Some (Some (Custom type_string
                          (default (Preset "Set") base_cls)
                          [("value_list",
                            Plain (dict_get_or PNone "value_list" entries));
                           ("value_type",
                            Plain (dict_get_or (PStr "u64") "value_type"
                                     entries))]))
          else None
      | _ => None
      end
  | _ => class_of_value registry data
  end.

(** [update_type_registry_types(types_dict)]: the entries in the order of
    the dict, each stored under its lower-case name; an alias is bound to
    the class its target has at that moment. *)
Fixpoint update_type_registry_types
    (registry : gmap string (option decoder_class))
    (types_dict : list (string * pyval))
  : option (gmap string (option decoder_class)) :=
  match types_dict with
  | [] => Some registry
  | (type_string, data) :: rest =>
      decoder ← entry_class registry type_string data;
      update_type_registry_types (<[lower type_string := decoder]> registry)
        rest
  end.

(** [RuntimeConfigurationObject.update_type_registry(type_registry)]: the
    runtime id and the versioning are set from the dict, [None] where it
    has none, and then the types are registered. *)
Definition config_update_type_registry (config : RuntimeConfig)
    (type_registry : pyval) : option RuntimeConfig :=
  match type_registry with
  | PDict entries =>
      let id := dict_get_or PNone "runtime_id" entries in
      let versions := dict_get_or PNone "versioning" entries in
      let upgrades := dict_get_or PNone "runtime_upgrades" entries in
      match dict_get "types" entries with
      | Some (PDict types_dict) =>
          registry ← update_type_registry_types (types config) types_dict;
          Some {| types := registry;
                  active_spec_version_id := id;
                  versioning := versions;
                  runtime_upgrades := upgrades |}
      | Some _ => None
      | None =>
          Some {| types := types config;
                  active_spec_version_id := id;
                  versioning := versions;
                  runtime_upgrades := upgrades |}
      end
  | _ => None
  end.

End Registry.

(** The class a name stands for in a registry. *)
Definition class_at (registry : gmap string (option decoder_class))
    (name : string) : option decoder_class :=
  mjoin (registry !! name).

Section Client.

(** What the library keeps to itself: the metadata of the runtime, the
    codec objects, the connection state, the built extrinsics and
    their receipts, and the state of the node and of the process. *)
Variables Metadata ScaleObject Runtime Extrinsic Receipt Env : Type.

(** The [SubstrateInterface] object: its [runtime_config] and the rest
    of its state. *)
Record SubstrateInterface : Type := {
  runtime_config : RuntimeConfig;
  runtime : Runtime
}.

Inductive op : Type -> Type :=
| new_interface (url : string) (use_remote_preset : bool)
    : op SubstrateInterface
| init_runtime (self : SubstrateInterface) : op SubstrateInterface
| update_type_registry (self : SubstrateInterface) (type_registry : pyval)
    : op SubstrateInterface
| get_metadata (self : SubstrateInterface)
    : op (Metadata * SubstrateInterface)
| create_scale_object (self : SubstrateInterface) (type_string : string)
    (metadata : Metadata) : op (ScaleObject * SubstrateInterface)
| scale_encode (self : ScaleObject) (value : pyval) : op bytes
| print (data : bytes) : op unit
| create_from_private_key (key : string) (crypto : KeypairType)
    : op Keypair
| create_signed_extrinsic (self : SubstrateInterface) (call : ScaleObject)
    (keypair : Keypair) : op (Extrinsic * SubstrateInterface * Keypair)
| submit_extrinsic (self : SubstrateInterface) (extrinsic : Extrinsic)
    (wait_for_inclusion : bool) : op (Receipt * SubstrateInterface).

(** Programs over the operations. *)
Inductive prog (A : Type) : Type :=
| Ret (a : A)
| Raise
| Do {X : Type} (o : op X) (k : X -> prog A).

Arguments Ret {A} a.
Arguments Raise {A}.
Arguments Do {A X} o k.

Fixpoint bind {A B : Type} (p : prog A) (f : A -> prog B) : prog B :=
  match p with
  | Ret a => f a
  | Raise => Raise
  | Do o k => Do o (fun x => bind (k x) f)
  end.

Definition call {X : Type} (o : op X) : prog X := Do o Ret.

(** A pure computation that may raise. *)
Definition lift {A : Type} (r : option A) : prog A :=
  match r with
  | Some a => Ret a
  | None => Raise
  end.

#[local] Instance prog_ret : MRet prog := @Ret.
#[local] Instance prog_bind : MBind prog := fun A B f p => bind p f.

Inductive event : Type :=
| Event {X : Type} (o : op X).

(** The environment answers an operation in a state of its own. *)
Variable handler : forall X : Type, op X -> Env -> option X * Env.

(** A run: the operations performed in order, the final state of the
    environment, and the value returned unless an exception ended the
    run. *)
Fixpoint run {A : Type} (p : prog A) (env : Env)
  : list event * Env * option A :=
  match p with
  | Ret a => ([], env, Some a)
  | Raise => ([], env, None)
  | Do o k =>
      match handler _ o env with
      | (Some x, env') =>
          let '(t, env'', r) := run (k x) env' in
          (Event o :: t, env'', r)
      | (None, env') => ([Event o], env', None)
      end
  end.

Definition trace {A : Type} (p : prog A) (env : Env) : list event :=
  fst (fst (run p env)).

Definition result {A : Type} (p : prog A) (env : Env) : option A :=
  snd (run p env).

(** What the run printed. *)
Fixpoint stdout (t : list event) : list bytes :=
  match t with
  | [] => []
  | Event (print data) :: t' => data :: stdout t'
  | _ :: t' => stdout t'
  end.

Definition is_signing (e : event) : bool :=
  match e with
  | Event (create_signed_extrinsic _ _ _) => true
  | _ => false
  end.

Definition is_submission (e : event) : bool :=
  match e with
  | Event (submit_extrinsic _ _ _) => true
  | _ => false
  end.

(** ** The script *)

Definition type_registry_overrides : pyval :=
  PDict [
    ("types", PDict [
      ("Address", PStr "AccountId");
      ("LookupSource", PStr "AccountId");
      ("Account", PDict [
        ("type", PStr "struct");
        ("type_mapping", PList [
          PList [PStr "nonce"; PStr "U256"];
          PList [PStr "balance"; PStr "U256"]])]);
      ("AccountId", PStr "H160");
      ("Transaction", PDict [
        ("type", PStr "struct");
        ("type_mapping", PList [
          PList [PStr "nonce"; PStr "U256"];
          PList [PStr "gas_price"; PStr "U256"];
          PList [PStr "gas_limit"; PStr "U256"];
          PList [PStr "action"; PStr "EthTransactionAction"];
          PList [PStr "value"; PStr "U256"];
          PList [PStr "input"; PStr "Bytes"];
          PList [PStr "signature"; PStr "EthTransactionSignature"]])]);
      ("Signature", PDict [
        ("type", PStr "struct");
        ("type_mapping", PList [
          PList [PStr "v"; PStr "u64"];
          PList [PStr "r"; PStr "H256"];
          PList [PStr "s"; PStr "H256"]])])])].

Definition init_interface : prog SubstrateInterface :=
  substrate ← call (new_interface "ws://127.0.0.1:9944" true);
  substrate ← call (init_runtime substrate);
  substrate ← call (update_type_registry substrate type_registry_overrides);
  mret substrate.

(** The dict passed to [call.encode]. *)
Definition call_descriptor (keypair : Keypair) (contract_addr : string)
    (input : bytes) : pyval :=
  PDict [
    ("call_module", PStr "EVM");
    ("call_function", PStr "call");
    ("call_args", PDict [
      ("source", PStr ("0x" +:+ bytes_hex (public_key keypair)));
      ("target", PStr contract_addr);
      ("input", PStr (bytes_hex input));
      ("value", PInt 0);
      ("gas_limit", PInt 10000000);
      ("max_fee_per_gas", PInt 10000000);
      ("max_priority_fee_per_gas", PNone);
      ("nonce", PNone);
      ("access_list", PList [])])].

(** The function returns nothing; the model returns the state in which
    it leaves the two objects it was passed. *)
Definition call_contract (interface : SubstrateInterface)
    (keypair : Keypair) (contract_addr : string) (input : bytes)
  : prog (SubstrateInterface * Keypair) :=
  '(meta, interface) ← call (get_metadata interface);
  '(call_obj, interface) ← call (create_scale_object interface "Call" meta);
  cc ← call (scale_encode call_obj
               (call_descriptor keypair contract_addr input));
  _ ← call (print cc);
  mret (interface, keypair).

Definition alith_private_key : string :=
  "0x5fb92d6e98884f76de468fa3f6278f8807c48bebc13595d45af5bdc4da702133".

(** The module body, top to bottom. *)
Definition script : prog (SubstrateInterface * Keypair) :=
  contract_address ← lift CONTRACT_ADDRESS;
  interface ← init_interface;
  alith_keypair ← call (create_from_private_key alith_private_key ECDSA);
  input_bytes ← lift input;
  call_contract interface alith_keypair contract_address input_bytes.

(** ** Notions about runs *)

(** [d[key]] on a value. *)
Definition py_get (key : string) (v : pyval) : option pyval :=
  match v with
  | PDict entries => dict_get key entries
  | _ => None
  end.

(** The values handed to [encode] during a run. *)
Fixpoint encoded_values (t : list event) : list pyval :=
  match t with
  | [] => []
  | Event (scale_encode _ value) :: t' => value :: encoded_values t'
  | _ :: t' => encoded_values t'
  end.

(** The keypair objects an operation is passed. *)
Definition keypair_arguments (e : event) : list Keypair :=
  match e with
  | Event (create_signed_extrinsic _ _ keypair) => [keypair]
  | _ => []
  end.

(** The library function behind an operation. *)
Definition op_name {X : Type} (o : op X) : string :=
  match o with
  | new_interface _ _ => "SubstrateInterface"
  | init_runtime _ => "init_runtime"
  | update_type_registry _ _ => "update_type_registry"
  | get_metadata _ => "get_metadata"
  | create_scale_object _ _ _ => "create_scale_object"
  | scale_encode _ _ => "encode"
  | print _ => "print"
  | create_from_private_key _ _ => "create_from_private_key"
  | create_signed_extrinsic _ _ _ => "create_signed_extrinsic"
  | submit_extrinsic _ _ _ => "submit_extrinsic"
  end.

Definition event_name (e : event) : string :=
  match e with
  | Event o => op_name o
  end.

(** Every operation the program can perform satisfies [P], whatever the
    environment answers. *)
Inductive all_ops (P : event -> Prop) {A : Type} : prog A -> Prop :=
| all_ops_Ret (a : A) : all_ops P (Ret a)
| all_ops_Raise : all_ops P Raise
| all_ops_Do {X : Type} (o : op X) (k : X -> prog A) :
    P (Event o) -> (forall x : X, all_ops P (k x)) -> all_ops P (Do o k).

(** The dicts handed to [update_type_registry] during a run. *)
Fixpoint registry_updates (t : list event) : list pyval :=
  match t with
  | [] => []
  | Event (update_type_registry _ d) :: t' => d :: registry_updates t'
  | _ :: t' => registry_updates t'
  end.

(** The calls that ask the library or the node for a value, as opposed to
    printing and to signing and submitting an extrinsic. *)
Definition is_query {X : Type} (o : op X) : bool :=
  match o with
  | print _ | create_signed_extrinsic _ _ _ | submit_extrinsic _ _ _ => false
  | _ => true
  end.

(** The state of the chain and of the library is fixed: what a query
    answers depends on the call alone, not on the state of the environment
    in which it is made. *)
Definition queries_functional : Prop :=
  forall (X : Type) (o : op X) (e1 e2 : Env),
    is_query o = true ->
    fst (handler X o e1) = fst (handler X o e2).

(** An environment in which [update_type_registry] is the one of
    [scalecodec], acting on the [runtime_config] of the interface. *)
Definition with_scalecodec
    (derive :
       gmap string (option decoder_class) -> string -> option decoder_class)
    (X : Type) (o : op X) (env : Env) : option X * Env :=
  match o in op X' return option X' * Env with
  | update_type_registry self d =>
      (config ← config_update_type_registry derive (runtime_config self) d;
       Some {| runtime_config := config; runtime := runtime self |}, env)
  | other => handler _ other env
  end.

End Client.

Arguments runtime_config {Runtime} _.
Arguments runtime {Runtime} _.
Arguments Build_SubstrateInterface {Runtime} _ _.
Arguments new_interface {Metadata ScaleObject Runtime Extrinsic Receipt} _ _.
Arguments init_runtime {Metadata ScaleObject Runtime Extrinsic Receipt} _.
Arguments update_type_registry
  {Metadata ScaleObject Runtime Extrinsic Receipt} _ _.
Arguments get_metadata {Metadata ScaleObject Runtime Extrinsic Receipt} _.
Arguments create_scale_object
  {Metadata ScaleObject Runtime Extrinsic Receipt} _ _ _.
Arguments scale_encode {Metadata ScaleObject Runtime Extrinsic Receipt} _ _.
Arguments print {Metadata ScaleObject Runtime Extrinsic Receipt} _.
Arguments create_from_private_key
  {Metadata ScaleObject Runtime Extrinsic Receipt} _ _.
Arguments create_signed_extrinsic
  {Metadata ScaleObject Runtime Extrinsic Receipt} _ _ _.
Arguments submit_extrinsic
  {Metadata ScaleObject Runtime Extrinsic Receipt} _ _ _.
Arguments Ret {Metadata ScaleObject Runtime Extrinsic Receipt A} _.
Arguments Raise {Metadata ScaleObject Runtime Extrinsic Receipt A}.
Arguments Do {Metadata ScaleObject Runtime Extrinsic Receipt A X} _ _.
Arguments bind {Metadata ScaleObject Runtime Extrinsic Receipt A B} _ _.
Arguments call {Metadata ScaleObject Runtime Extrinsic Receipt X} _.
Arguments lift {Metadata ScaleObject Runtime Extrinsic Receipt A} _.
Arguments Event {Metadata ScaleObject Runtime Extrinsic Receipt X} _.
Arguments run {Metadata ScaleObject Runtime Extrinsic Receipt Env} _ {A} _ _.
Arguments trace {Metadata ScaleObject Runtime Extrinsic Receipt Env} _ {A} _ _.
Arguments result {Metadata ScaleObject Runtime Extrinsic Receipt Env} _ {A} _ _.
Arguments stdout {Metadata ScaleObject Runtime Extrinsic Receipt} _.
Arguments is_signing {Metadata ScaleObject Runtime Extrinsic Receipt} _.
Arguments is_submission {Metadata ScaleObject Runtime Extrinsic Receipt} _.
Arguments init_interface {Metadata ScaleObject Runtime Extrinsic Receipt}.
Arguments call_contract
  {Metadata ScaleObject Runtime Extrinsic Receipt} _ _ _ _.
Arguments script {Metadata ScaleObject Runtime Extrinsic Receipt}.
Arguments encoded_values {Metadata ScaleObject Runtime Extrinsic Receipt} _.
Arguments keypair_arguments {Metadata ScaleObject Runtime Extrinsic Receipt} _.
Arguments op_name {Metadata ScaleObject Runtime Extrinsic Receipt X} _.
Arguments event_name {Metadata ScaleObject Runtime Extrinsic Receipt} _.
Arguments all_ops {Metadata ScaleObject Runtime Extrinsic Receipt} _ {A} _.
Arguments registry_updates {Metadata ScaleObject Runtime Extrinsic Receipt} _.
Arguments is_query {Metadata ScaleObject Runtime Extrinsic Receipt X} _.
Arguments queries_functional
  {Metadata ScaleObject Runtime Extrinsic Receipt Env} _.
Arguments with_scalecodec
  {Metadata ScaleObject Runtime Extrinsic Receipt Env} _ _ _ _ _.

(** ** A mock of the library and the node

    Canned answers, for running the script: the metadata is a label, a
    codec object is its type string, and the state of the environment
    counts the operations answered. *)

Module Mock.

Definition alith_address : bytes :=
  default [] (EthAbi.decode_hex "f24ff3a9cf04c71dbc94d0b566f7a27b94566cac").

(** The stand-in for the SCALE encoder: the source, target and input of
    the call, one after the other. *)
Definition encode_call (value : pyval) : option bytes :=
  args ← py_get "call_args" value;
  match py_get "source" args, py_get "target" args, py_get "input" args with
  | Some (PStr source), Some (PStr target), Some (PStr data) =>
      s ← EthAbi.decode_hex (EthUtils.remove_0x_prefix source);
      t ← EthAbi.decode_hex (lower (EthUtils.remove_0x_prefix target));
      d ← EthAbi.decode_hex data;
      Some (s ++ t ++ d)
  | _, _, _ => None
  end.

(** The registry as a preset leaves it: account ids of 32 bytes. *)
Definition presets : gmap string (option decoder_class) :=
  list_to_map [
    ("accountid", Some (Preset "GenericAccountId"));
    ("h160", Some (Preset "H160"));
    ("h256", Some (Preset "H256"));
    ("u256", Some (Preset "U256"));
    ("u64", Some (Preset "U64"));
    ("bytes", Some (Preset "Bytes"));
    ("struct", Some (Preset "Struct"))].

Definition config : RuntimeConfig :=
  {| types := presets;
     active_spec_version_id := PInt 1;
     versioning := PNone;
     runtime_upgrades := PNone |}.

(** The node and the library but for the type registry. *)
Definition library (X : Type) (o : op string string bool bytes string X)
    (env : nat) : option X * nat :=
  match o in op _ _ _ _ _ X return option X * nat with
  | new_interface _ _ =>
      (Some {| runtime_config :=
                 {| types := ∅;
                    active_spec_version_id := PNone;
                    versioning := PNone;
                    runtime_upgrades := PNone |};
               runtime := false |}, S env)
  | init_runtime self =>
      (Some {| runtime_config := config; runtime := true |}, S env)
  | update_type_registry _ _ => (None, S env)
  | get_metadata self =>
      (if runtime self then Some ("MetadataV14", self) else None, S env)
  | create_scale_object self type_string _ =>
      (Some (type_string, self), S env)
  | scale_encode _ value => (encode_call value, S env)
  | print _ => (Some tt, S env)
  | create_from_private_key key crypto =>
      (private ← EthAbi.decode_hex (EthUtils.remove_0x_prefix key);
       Some {| public_key := alith_address;
               private_key := private;
               crypto_type := crypto |}, S env)
  | create_signed_extrinsic _ _ _ => (None, S env)
  | submit_extrinsic _ _ _ => (None, S env)
  end.

(** The mock: the library, with the type registry of [scalecodec]. *)
Definition handler : forall X : Type,
    op string string bool bytes string X -> nat -> option X * nat :=
  with_scalecodec library (fun _ _ => None).

(** An interface whose runtime is initialised, a keypair, and the call of
    the script on them. *)
Definition interface : SubstrateInterface bool :=
  {| runtime_config := config; runtime := true |}.

Definition keypair : Keypair :=
  {| public_key := alith_address;
     private_key := [];
     crypto_type := ECDSA |}.

Definition call_name : prog string string bool bytes string
    (SubstrateInterface bool * Keypair) :=
  call_contract interface keypair
    "0x0000000000000000000000000000000000000802" [x06; xfd; xde; x03].

End Mock.

End Substrate.

(** * Notions used to state the properties *)

(** The digits [hex] produces: [0-9a-f]. *)
Definition lower_hex_digit (c : ascii) : bool :=
  let n := Z.of_N (N_of_ascii c) in
  ((48 <=? n) && (n <=? 57)) || ((97 <=? n) && (n <=? 102)).

(** The mixed-case rule of the checksum: a character of the address is
    raised when the hash digit at its place is 8 or more. *)
Definition case_char (c h : ascii) : ascii :=
  match EthUtils.hex_value h with
  | Some v => if 7 <? v then upper_char c else c
  | None => c
  end.

Fixpoint casing (address hash : string) : string :=
  match address, hash with
  | String c address', String h hash' =>
      String (case_char c h) (casing address' hash')
  | _, _ => EmptyString
  end.

(** The value of a string of hex digits, [int(s, 16)]. *)
Fixpoint int16_from (acc : Z) (s : string) : option Z :=
  match s with
  | EmptyString => Some acc
  | String c s' =>
      v ← EthUtils.hex_value c;
      int16_from (16 * acc + v) s'
  end.

Definition int16 (s : string) : option Z :=
  match s with
  | EmptyString => None
  | _ => int16_from 0 s
  end.

(** A whole number of 32-byte words. *)
Definition aligned (b : bytes) : Prop := (length b mod 32 = 0)%nat.

(** * Properties *)

(** ** Characters and strings *)

Ltac each_ascii c :=
  let b0 := fresh in let b1 := fresh in let b2 := fresh in
  let b3 := fresh in let b4 := fresh in let b5 := fresh in
  let b6 := fresh in let b7 := fresh in
  destruct c as [b0 b1 b2 b3 b4 b5 b6 b7];
  destruct b0, b1, b2, b3, b4, b5, b6, b7.

Lemma lower_hex_is_hex c :
  lower_hex_digit c = true -> EthUtils.is_hex_digit c = true.
Proof. each_ascii c; vm_compute; congruence. Qed.

Lemma lower_hex_lower c : lower_hex_digit c = true -> lower_char c = c.
Proof. each_ascii c; vm_compute; congruence. Qed.

Lemma lower_upper_hex c :
  lower_hex_digit c = true -> lower_char (upper_char c) = c.
Proof. each_ascii c; vm_compute; congruence. Qed.

Lemma upper_hex_is_hex c :
  EthUtils.is_hex_digit c = true -> EthUtils.is_hex_digit (upper_char c) = true.
Proof. each_ascii c; vm_compute; congruence. Qed.

Lemma hex_digit_not_x c :
  EthUtils.is_hex_digit c = true -> c <> "x"%char /\ c <> "X"%char.
Proof. each_ascii c; vm_compute; split; congruence. Qed.

Lemma hex_digit_not_sign c :
  EthUtils.is_hex_digit c = true ->
  (Ascii.eqb c "+" || Ascii.eqb c "-")%bool = false.
Proof. each_ascii c; vm_compute; congruence. Qed.

Lemma hex_char_lower_hex d : 0 <= d < 16 -> lower_hex_digit (hex_char d) = true.
Proof.
  intros Hd.
  assert (Hn : d = Z.of_nat (Z.to_nat d)) by lia.
  assert (Hlt : (Z.to_nat d < 16)%nat) by lia.
  rewrite Hn. clear Hn. generalize dependent (Z.to_nat d). intros k Hk.
  do 16 (destruct k as [|k]; [reflexivity|]). lia.
Qed.

Lemma append_nil_l (s : string) : "" +:+ s = s.
Proof. reflexivity. Qed.

Lemma append_cons c (s1 s2 : string) :
  String c s1 +:+ s2 = String c (s1 +:+ s2).
Proof. reflexivity. Qed.

Ltac str_simpl :=
  repeat (rewrite append_cons || rewrite append_nil_l); simpl.

Lemma length_append (s1 s2 : string) :
  String.length (s1 +:+ s2) = (String.length s1 + String.length s2)%nat.
Proof. induction s1 as [|c s1 IH]; str_simpl; [reflexivity | now rewrite IH]. Qed.

Lemma append_assoc (s1 s2 s3 : string) :
  (s1 +:+ s2) +:+ s3 = s1 +:+ (s2 +:+ s3).
Proof. induction s1 as [|c s1 IH]; str_simpl; [reflexivity | now rewrite IH]. Qed.

Lemma length_repeat_char c k : String.length (repeat_char c k) = k.
Proof. induction k as [|k IH]; simpl; [reflexivity | now rewrite IH]. Qed.

Lemma length_map_str f s : String.length (map_str f s) = String.length s.
Proof. induction s as [|c s IH]; simpl; [reflexivity | now rewrite IH]. Qed.

Lemma map_str_append f s1 s2 :
  map_str f (s1 +:+ s2) = map_str f s1 +:+ map_str f s2.
Proof. induction s1 as [|c s1 IH]; str_simpl; [reflexivity | now rewrite IH]. Qed.

Lemma all_str_append p s1 s2 :
  EthUtils.all_str p (s1 +:+ s2)
  = EthUtils.all_str p s1 && EthUtils.all_str p s2.
Proof.
  induction s1 as [|c s1 IH]; str_simpl; [reflexivity|].
  rewrite IH. now rewrite andb_assoc.
Qed.

Lemma all_str_repeat_char p c k :
  p c = true -> EthUtils.all_str p (repeat_char c k) = true.
Proof. intros Hc. induction k as [|k IH]; simpl; [reflexivity | now rewrite Hc]. Qed.

Lemma all_str_impl (p q : ascii -> bool) s :
  (forall c, p c = true -> q c = true) ->
  EthUtils.all_str p s = true -> EthUtils.all_str q s = true.
Proof.
  intros Hpq. induction s as [|c s IH]; simpl; [reflexivity|].
  intros [Hc Hs]%andb_prop. rewrite (Hpq _ Hc). now apply IH.
Qed.

Lemma lower_lower_hex s :
  EthUtils.all_str lower_hex_digit s = true -> lower s = s.
Proof.
  unfold lower. induction s as [|c s IH]; simpl; [reflexivity|].
  intros [Hc Hs]%andb_prop. now rewrite (lower_hex_lower _ Hc), IH.
Qed.

(** A string of hex digits carries no [0x] prefix. *)
Lemma hex_not_prefixed s :
  EthUtils.all_str EthUtils.is_hex_digit s = true ->
  EthUtils.is_0x_prefixed s = false.
Proof.
  unfold EthUtils.is_0x_prefixed.
  destruct s as [|a [|b s]]; try reflexivity; cbn [startswith EthUtils.all_str].
  - intros _. now rewrite !andb_false_r.
  - intros [_ [Hb _]%andb_prop]%andb_prop.
    destruct (hex_digit_not_x _ Hb) as [Hx HX].
    destruct (Ascii.eqb_spec "x" b), (Ascii.eqb_spec "X" b); try congruence.
    now rewrite !andb_false_r.
Qed.

Lemma prefixed_0x s : EthUtils.is_0x_prefixed ("0x" +:+ s) = true.
Proof. reflexivity. Qed.

Lemma remove_add_prefix s :
  EthUtils.remove_0x_prefix ("0x" +:+ s) = s.
Proof. unfold EthUtils.remove_0x_prefix. now rewrite prefixed_0x. Qed.

(** ** Hexadecimal digits *)

Lemma hex_digits_from_lower_hex fuel : forall n acc,
  0 <= n ->
  EthUtils.all_str lower_hex_digit acc = true ->
  EthUtils.all_str lower_hex_digit (hex_digits_from fuel n acc) = true.
Proof.
  induction fuel as [|fuel IH]; intros n acc Hn Hacc; simpl; [assumption|].
  assert (Hd : lower_hex_digit (hex_char (n mod 16)) = true)
    by (apply hex_char_lower_hex, Z.mod_pos_bound; lia).
  destruct (n / 16 =? 0).
  - simpl. now rewrite Hd.
  - apply IH; [apply Z.div_pos; lia | simpl; now rewrite Hd].
Qed.

Lemma hex_digits_from_length_ge fuel : forall n acc,
  (String.length acc <= String.length (hex_digits_from fuel n acc))%nat.
Proof.
  induction fuel as [|fuel IH]; intros n acc; simpl; [lia|].
  destruct (n / 16 =? 0); simpl; [lia|].
  etransitivity; [|apply IH]. simpl. lia.
Qed.

Lemma hex_digits_from_length_le fuel : forall n acc m,
  0 <= n < 16 ^ Z.of_nat m -> (1 <= m)%nat ->
  (String.length (hex_digits_from fuel n acc) <= String.length acc + m)%nat.
Proof.
  induction fuel as [|fuel IH]; intros n acc m Hn Hm; simpl; [lia|].
  destruct (Z.eqb_spec (n / 16) 0) as [Hq|Hq]; simpl; [lia|].
  assert (16 <= n).
  { destruct (Z_lt_le_dec n 16) as [Hlt|]; [|assumption].
    exfalso. apply Hq, Z.div_small. lia. }
  destruct m as [|[|m]]; [lia | simpl in Hn; lia |].
  etransitivity; [apply (IH _ _ (S m))|]; simpl String.length; try lia.
  split; [apply Z.div_pos; lia|].
  apply Z.div_lt_upper_bound; [lia|].
  replace (Z.of_nat (S (S m))) with (Z.succ (Z.of_nat (S m))) in Hn by lia.
  rewrite Z.pow_succ_r in Hn by lia. lia.
Qed.

Lemma hex_digits_from_length_gt fuel : forall n acc m,
  16 ^ Z.of_nat m <= n -> (m < fuel)%nat ->
  (String.length acc + m < String.length (hex_digits_from fuel n acc))%nat.
Proof.
  induction fuel as [|fuel IH]; intros n acc m Hn Hm; [lia|]. simpl.
  destruct m as [|m].
  - destruct (n / 16 =? 0); simpl; [lia|].
    eapply Nat.lt_le_trans; [|apply hex_digits_from_length_ge]. simpl. lia.
  - replace (Z.of_nat (S m)) with (Z.succ (Z.of_nat m)) in Hn by lia.
    rewrite Z.pow_succ_r in Hn by lia.
    assert (Hpos : 0 < 16 ^ Z.of_nat m) by (apply Z.pow_pos_nonneg; lia).
    assert (Hq : 16 ^ Z.of_nat m <= n / 16)
      by (apply Z.div_le_lower_bound; lia).
    destruct (Z.eqb_spec (n / 16) 0) as [Hz|Hz]; [lia|].
    specialize (IH (n / 16) (String (hex_char (n mod 16)) acc) m Hq).
    simpl in IH. lia.
Qed.

Lemma hex_digits_lower_hex n :
  0 <= n -> EthUtils.all_str lower_hex_digit (hex_digits n) = true.
Proof. intros Hn. now apply hex_digits_from_lower_hex. Qed.

Lemma hex_digits_nonempty n : (1 <= String.length (hex_digits n))%nat.
Proof.
  unfold hex_digits. simpl.
  destruct (n / 16 =? 0); simpl; [lia|].
  etransitivity; [|apply hex_digits_from_length_ge]. simpl. lia.
Qed.

Lemma hex_digits_short n :
  0 <= n < 16 ^ 40 -> (String.length (hex_digits n) <= 40)%nat.
Proof.
  intros Hn. unfold hex_digits.
  etransitivity; [apply (hex_digits_from_length_le _ _ _ 40)|]; simpl; lia.
Qed.

Lemma hex_digits_long n :
  16 ^ 40 <= n -> (40 < String.length (hex_digits n))%nat.
Proof.
  intros Hn. unfold hex_digits.
  apply (hex_digits_from_length_gt _ n "" 40); [exact Hn|].
  assert (160 <= Z.log2 n).
  { apply Z.log2_le_pow2; [lia|]. change (2 ^ 160) with (16 ^ 40). lia. }
  lia.
Qed.

(** ** Padding and normalisation *)

Lemma append_nil_r (s : string) : s +:+ "" = s.
Proof. induction s as [|c s IH]; str_simpl; [reflexivity | now rewrite IH]. Qed.

Lemma zfill_hex width s :
  EthUtils.all_str EthUtils.is_hex_digit s = true ->
  zfill width s = repeat_char "0" (width - String.length s) +:+ s.
Proof.
  unfold zfill. destruct s as [|c s]; [now rewrite append_nil_r|].
  cbn [EthUtils.all_str]. intros [Hc _]%andb_prop.
  now rewrite (hex_digit_not_sign _ Hc).
Qed.

Lemma lower_char_idem c : lower_char (lower_char c) = lower_char c.
Proof. each_ascii c; reflexivity. Qed.

Lemma lower_idem s : lower (lower s) = lower s.
Proof.
  unfold lower. induction s as [|c s IH]; simpl; [reflexivity|].
  now rewrite lower_char_idem, IH.
Qed.

Lemma lower_char_is_hex c :
  EthUtils.is_hex_digit c = true ->
  lower_hex_digit (lower_char c) = true.
Proof. each_ascii c; vm_compute; congruence. Qed.

Lemma lower_all_hex s :
  EthUtils.all_str EthUtils.is_hex_digit s = true ->
  EthUtils.all_str lower_hex_digit (lower s) = true.
Proof.
  unfold lower. induction s as [|c s IH]; simpl; [reflexivity|].
  intros [Hc Hs]%andb_prop. now rewrite (lower_char_is_hex _ Hc), IH.
Qed.

Lemma lower_hex_all_hex s :
  EthUtils.all_str lower_hex_digit s = true ->
  EthUtils.all_str EthUtils.is_hex_digit s = true.
Proof. apply all_str_impl, lower_hex_is_hex. Qed.

Lemma add_prefix_prefixed s :
  EthUtils.add_0x_prefix ("0x" +:+ s) = "0x" +:+ s.
Proof. reflexivity. Qed.

Lemma add_prefix_hex s :
  EthUtils.all_str EthUtils.is_hex_digit s = true ->
  EthUtils.add_0x_prefix s = "0x" +:+ s.
Proof.
  intros Hs. unfold EthUtils.add_0x_prefix. now rewrite (hex_not_prefixed _ Hs).
Qed.

Lemma remove_prefix_hex s :
  EthUtils.all_str EthUtils.is_hex_digit s = true ->
  EthUtils.remove_0x_prefix s = s.
Proof.
  intros Hs. unfold EthUtils.remove_0x_prefix. now rewrite (hex_not_prefixed _ Hs).
Qed.

Lemma lower_prefixed s : lower ("0x" +:+ s) = "0x" +:+ lower s.
Proof. reflexivity. Qed.

Lemma is_address_prefixed s :
  EthUtils.is_address ("0x" +:+ s)
  = (String.length s =? 40)%nat && EthUtils.all_str EthUtils.is_hex_digit s.
Proof.
  unfold EthUtils.is_address, EthUtils.is_hex_address.
  now rewrite remove_add_prefix.
Qed.

Lemma is_hexstr_prefixed s :
  EthUtils.is_hexstr ("0x" +:+ s) = EthUtils.all_str EthUtils.is_hex_digit s.
Proof. reflexivity. Qed.

Lemma is_hexstr_hex s :
  EthUtils.all_str EthUtils.is_hex_digit s = true ->
  (1 <= String.length s)%nat ->
  EthUtils.is_hexstr s = true.
Proof.
  intros Hs Hlen. unfold EthUtils.is_hexstr. rewrite (remove_prefix_hex _ Hs).
  destruct s; [simpl in Hlen; lia | exact Hs].
Qed.

Lemma normalized_of_lowered s :
  EthUtils.all_str EthUtils.is_hex_digit s = true ->
  (if EthUtils.is_address (lower ("0x" +:+ lower s))
   then Some (lower ("0x" +:+ lower s)) else None)
  = if (String.length s =? 40)%nat then Some ("0x" +:+ lower s) else None.
Proof.
  intros Hs. pose proof (lower_all_hex _ Hs) as Hl.
  rewrite lower_prefixed, lower_idem, is_address_prefixed.
  rewrite (lower_hex_all_hex _ Hl), andb_true_r.
  unfold lower at 1. now rewrite length_map_str.
Qed.

(** A prefixed string of hex digits is normalised exactly when it has 40
    digits, to its lower-case form. *)
Lemma to_normalized_prefixed s :
  EthUtils.all_str EthUtils.is_hex_digit s = true ->
  EthUtils.to_normalized_address ("0x" +:+ s)
  = if (String.length s =? 40)%nat then Some ("0x" +:+ lower s) else None.
Proof.
  intros Hs.
  unfold EthUtils.to_normalized_address, EthUtils.hexstr_if_str_to_hex.
  rewrite is_hexstr_prefixed, Hs, andb_false_r.
  cbn [fmap option_fmap option_map mbind option_bind].
  rewrite lower_prefixed, add_prefix_prefixed.
  now apply normalized_of_lowered.
Qed.

(** An unprefixed, non-empty string of hex digits likewise. *)
Lemma to_normalized_hex s :
  EthUtils.all_str EthUtils.is_hex_digit s = true ->
  (1 <= String.length s)%nat ->
  EthUtils.to_normalized_address s
  = if (String.length s =? 40)%nat then Some ("0x" +:+ lower s) else None.
Proof.
  intros Hs Hlen.
  unfold EthUtils.to_normalized_address, EthUtils.hexstr_if_str_to_hex.
  rewrite (is_hexstr_hex _ Hs Hlen), andb_false_r.
  cbn [fmap option_fmap option_map mbind option_bind].
  rewrite (add_prefix_hex (lower s))
    by now apply lower_hex_all_hex, lower_all_hex.
  now apply normalized_of_lowered.
Qed.

(** ** The checksum *)

Lemma get_append_length (s1 : string) c (s2 : string) :
  String.get (String.length s1) (s1 +:+ String c s2) = Some c.
Proof.
  change (String.length s1) with (0 + String.length s1)%nat.
  now rewrite <- (append_correct2 s1 (String c s2) 0).
Qed.

Lemma append_snoc (s1 : string) c (s2 : string) :
  s1 +:+ String c s2 = (s1 +:+ String c "") +:+ s2.
Proof. now rewrite append_assoc. Qed.

Lemma is_hex_digit_value h :
  EthUtils.is_hex_digit h = true -> exists v, EthUtils.hex_value h = Some v.
Proof. unfold EthUtils.is_hex_digit. destruct (EthUtils.hex_value h); eauto; discriminate. Qed.

Lemma mapM_checksum_char address : forall hash s1 s2,
  String.length s1 = String.length s2 ->
  (String.length address <= String.length hash)%nat ->
  EthUtils.all_str EthUtils.is_hex_digit hash = true ->
  mapM (EthUtils.checksum_char (s1 +:+ address) (s2 +:+ hash))
    (seq (String.length s1) (String.length address))
  = Some (list_ascii_of_string (casing address hash)).
Proof.
  induction address as [|c address IH]; intros hash s1 s2 Hlen Hle Hhex.
  - reflexivity.
  - destruct hash as [|h hash]; [simpl in Hle; lia|].
    cbn [EthUtils.all_str] in Hhex. apply andb_prop in Hhex as [Hh Hhex].
    destruct (is_hex_digit_value _ Hh) as [v Hv].
    assert (Hhead :
      EthUtils.checksum_char (s1 +:+ String c address) (s2 +:+ String h hash)
        (String.length s1) = Some (case_char c h)).
    { unfold EthUtils.checksum_char, case_char.
      rewrite get_append_length, Hlen, get_append_length.
      cbn [mbind option_bind]. now rewrite Hv. }
    cbn [String.length seq mapM casing list_ascii_of_string].
    rewrite Hhead. cbn [mbind option_bind].
    rewrite (append_snoc s1), (append_snoc s2).
    replace (S (String.length s1)) with (String.length (s1 +:+ String c ""))
      by (rewrite length_append; simpl; lia).
    rewrite IH.
    + reflexivity.
    + rewrite !length_append. simpl. lia.
    + simpl in Hle. lia.
    + exact Hhex.
Qed.

Lemma length_casing address : forall hash,
  (String.length address <= String.length hash)%nat ->
  String.length (casing address hash) = String.length address.
Proof.
  induction address as [|c address IH]; intros [|h hash] Hle; simpl in *;
    try lia.
  now rewrite IH by lia.
Qed.

Lemma case_char_lower c h :
  lower_hex_digit c = true -> lower_char (case_char c h) = c.
Proof.
  intros Hc. unfold case_char.
  destruct (EthUtils.hex_value h) as [v|]; [destruct (7 <? v)|];
    auto using lower_upper_hex, lower_hex_lower.
Qed.

Lemma case_char_hex c h :
  lower_hex_digit c = true -> EthUtils.is_hex_digit (case_char c h) = true.
Proof.
  intros Hc%lower_hex_is_hex. unfold case_char.
  destruct (EthUtils.hex_value h) as [v|]; [destruct (7 <? v)|];
    auto using upper_hex_is_hex.
Qed.

Lemma lower_casing address : forall hash,
  (String.length address <= String.length hash)%nat ->
  EthUtils.all_str lower_hex_digit address = true ->
  lower (casing address hash) = address.
Proof.
  unfold lower.
  induction address as [|c address IH]; intros [|h hash] Hle Hall; simpl in *;
    try lia; try reflexivity.
  apply andb_prop in Hall as [Hc Hall].
  now rewrite case_char_lower, IH by (assumption || lia).
Qed.

Lemma casing_all_hex address : forall hash,
  EthUtils.all_str lower_hex_digit address = true ->
  EthUtils.all_str EthUtils.is_hex_digit (casing address hash) = true.
Proof.
  induction address as [|c address IH]; intros [|h hash] Hall; simpl in *;
    try reflexivity.
  apply andb_prop in Hall as [Hc Hall].
  now rewrite case_char_hex, IH.
Qed.

Lemma Z_of_byte_range x : 0 <= Z_of_byte x < 256.
Proof.
  unfold Z_of_byte. pose proof (Byte.to_N_bounded x). lia.
Qed.

Lemma bytes_hex_lower_hex b :
  EthUtils.all_str lower_hex_digit (bytes_hex b) = true.
Proof.
  induction b as [|x b IH]; simpl; [reflexivity|].
  pose proof (Z_of_byte_range x).
  rewrite !hex_char_lower_hex, IH; try reflexivity.
  - apply Z.mod_pos_bound. lia.
  - split; [apply Z.div_pos; lia | apply Z.div_lt_upper_bound; lia].
Qed.

Lemma length_bytes_hex b : String.length (bytes_hex b) = (2 * length b)%nat.
Proof. induction b as [|x b IH]; simpl; [reflexivity | rewrite IH; lia]. Qed.

Lemma length_keccak256 msg : length (Keccak.keccak256 msg) = 32%nat.
Proof.
  unfold Keccak.keccak256, Keccak.sponge256.
  destruct (Keccak.absorb _ _ _) as [st pos].
  unfold Keccak.squeeze. now rewrite length_map, length_seq.
Qed.

(** The checksummed form of a normalised address. *)
Lemma to_checksum_of_normalized value address :
  EthUtils.to_normalized_address value = Some ("0x" +:+ address) ->
  EthUtils.all_str lower_hex_digit address = true ->
  String.length address = 40%nat ->
  EthUtils.to_checksum_address value
  = Some ("0x" +:+ casing address (bytes_hex (EthUtils.keccak_text address))).
Proof.
  intros Hnorm Hall Hlen.
  unfold EthUtils.to_checksum_address. rewrite Hnorm.
  cbn [mbind option_bind]. rewrite remove_add_prefix.
  set (hash := bytes_hex (EthUtils.keccak_text address)).
  assert (Hhash : EthUtils.all_str EthUtils.is_hex_digit hash = true)
    by apply lower_hex_all_hex, bytes_hex_lower_hex.
  unfold EthUtils.encode_hex. fold hash. rewrite (add_prefix_hex _ Hhash).
  change (seq 2 40) with (seq (String.length "0x") 40). rewrite <- Hlen.
  rewrite mapM_checksum_char; [| reflexivity | | exact Hhash].
  - cbn [mbind option_bind]. rewrite string_of_list_ascii_of_string.
    now rewrite add_prefix_hex by now apply casing_all_hex.
  - unfold hash. rewrite length_bytes_hex. unfold EthUtils.keccak_text.
    rewrite length_keccak256. lia.
Qed.

(** ** [hex] and [int(_, 16)] *)

Lemma hex_value_hex_char d : 0 <= d < 16 -> EthUtils.hex_value (hex_char d) = Some d.
Proof.
  intros Hd.
  assert (Hn : d = Z.of_nat (Z.to_nat d)) by lia.
  assert (Hlt : (Z.to_nat d < 16)%nat) by lia.
  rewrite Hn. clear Hn. generalize dependent (Z.to_nat d). intros k Hk.
  do 16 (destruct k as [|k]; [reflexivity|]). lia.
Qed.

Lemma int16_from_append s1 : forall acc s2,
  int16_from acc (s1 +:+ s2) = int16_from acc s1 ≫= fun a => int16_from a s2.
Proof.
  induction s1 as [|c s1 IH]; intros acc s2; str_simpl; [reflexivity|].
  destruct (EthUtils.hex_value c) as [v|]; [apply IH | reflexivity].
Qed.

Lemma hex_digits_from_acc fuel : forall n acc,
  hex_digits_from fuel n acc = hex_digits_from fuel n "" +:+ acc.
Proof.
  induction fuel as [|fuel IH]; intros n acc; simpl; [reflexivity|].
  destruct (n / 16 =? 0); [reflexivity|].
  rewrite IH, (IH _ (String _ "")), append_assoc. reflexivity.
Qed.

Lemma int16_from_hex_digits fuel : forall n,
  0 <= n < 16 ^ Z.of_nat fuel ->
  int16_from 0 (hex_digits_from fuel n "") = Some n.
Proof.
  induction fuel as [|fuel IH]; intros n Hn; [simpl in *; f_equal; lia|]. simpl.
  assert (Hd : 0 <= n mod 16 < 16) by (apply Z.mod_pos_bound; lia).
  destruct (Z.eqb_spec (n / 16) 0) as [Hq|Hq].
  - simpl. rewrite (hex_value_hex_char _ Hd). simpl. f_equal.
    pose proof (Z.div_mod n 16). lia.
  - rewrite hex_digits_from_acc, int16_from_append, IH.
    + simpl. rewrite (hex_value_hex_char _ Hd). simpl. f_equal.
      pose proof (Z.div_mod n 16). lia.
    + split; [apply Z.div_pos; lia|].
      apply Z.div_lt_upper_bound; [lia|].
      replace (Z.of_nat (S fuel)) with (Z.succ (Z.of_nat fuel)) in Hn by lia.
      rewrite Z.pow_succ_r in Hn by lia. lia.
Qed.

(** The digits [hex] writes denote the number. *)
Lemma int16_hex_digits n : 0 <= n -> int16 (hex_digits n) = Some n.
Proof.
  intros Hn. unfold int16.
  pose proof (hex_digits_nonempty n) as Hlen.
  destruct (hex_digits n) eqn:Hd; [simpl in Hlen; lia|]. rewrite <- Hd.
  apply int16_from_hex_digits. split; [assumption|].
  destruct (Z.eq_dec n 0) as [->|Hz]; [reflexivity|].
  destruct (Z.log2_spec n) as [_ Hlt]; [lia|].
  assert (Hlog : 0 <= Z.log2 n) by apply Z.log2_nonneg.
  rewrite Nat2Z.inj_succ, Z2Nat.id by assumption.
  eapply Z.lt_le_trans; [exact Hlt|].
  change 16 with (2 ^ 4). rewrite <- Z.pow_mul_r by lia.
  apply Z.pow_le_mono_r; lia.
Qed.

Lemma drop_hex_nonneg n : 0 <= n -> drop_str 2 (hex n) = hex_digits n.
Proof.
  intros Hn. unfold hex. destruct (Z.ltb_spec n 0); [lia | reflexivity].
Qed.

Lemma drop_hex_neg n :
  n < 0 -> drop_str 2 (hex n) = String "x" (hex_digits (- n)).
Proof.
  intros Hn. unfold hex. destruct (Z.ltb_spec n 0); [reflexivity | lia].
Qed.

(** ** [num_to_address] *)

Lemma padded_lower_hex n :
  0 <= n ->
  EthUtils.all_str lower_hex_digit (zfill 40 (hex_digits n)) = true.
Proof.
  intros Hn. pose proof (hex_digits_lower_hex n Hn) as Hd.
  rewrite zfill_hex by now apply lower_hex_all_hex.
  rewrite all_str_append, Hd, andb_true_r.
  now apply all_str_repeat_char.
Qed.

Lemma length_padded n :
  0 <= n ->
  String.length (zfill 40 (hex_digits n))
  = Nat.max 40 (String.length (hex_digits n)).
Proof.
  intros Hn. pose proof (hex_digits_lower_hex n Hn) as Hd.
  rewrite zfill_hex by now apply lower_hex_all_hex.
  rewrite length_append, length_repeat_char. lia.
Qed.

Lemma num_to_address_in_range n :
  0 <= n < 2 ^ 160 ->
  let padded := zfill 40 (hex_digits n) in
  num_to_address n
  = Some ("0x" +:+ casing padded (bytes_hex (EthUtils.keccak_text padded))).
Proof.
  intros Hn padded. unfold num_to_address.
  rewrite drop_hex_nonneg by lia. fold padded.
  assert (Hall : EthUtils.all_str lower_hex_digit padded = true)
    by (apply padded_lower_hex; lia).
  assert (Hlen : String.length padded = 40%nat).
  { unfold padded. rewrite length_padded by lia.
    pose proof (hex_digits_short n). change (16 ^ 40) with (2 ^ 160) in *. lia. }
  apply to_checksum_of_normalized; try assumption.
  rewrite to_normalized_hex, Hlen, lower_lower_hex;
    auto using lower_hex_all_hex. lia.
Qed.

Lemma num_to_address_too_long n :
  0 <= n -> (40 < String.length (hex_digits n))%nat -> num_to_address n = None.
Proof.
  intros Hn Hlen. unfold num_to_address, EthUtils.to_checksum_address.
  rewrite drop_hex_nonneg by lia.
  pose proof (padded_lower_hex n Hn) as Hall.
  pose proof (length_padded n Hn) as Hpad.
  rewrite to_normalized_hex by (auto using lower_hex_all_hex; lia).
  destruct (Nat.eqb_spec (String.length (zfill 40 (hex_digits n))) 40);
    [lia | reflexivity].
Qed.

Lemma to_normalized_not_hex value :
  EthUtils.is_0x_prefixed value = false ->
  EthUtils.all_str EthUtils.is_hex_digit value = false ->
  EthUtils.to_normalized_address value = None.
Proof.
  intros Hp Hhex.
  unfold EthUtils.to_normalized_address, EthUtils.hexstr_if_str_to_hex.
  unfold EthUtils.is_hexstr, EthUtils.remove_0x_prefix. rewrite Hp, Hhex.
  destruct value; [discriminate | reflexivity].
Qed.

Lemma num_to_address_negative n : n < 0 -> num_to_address n = None.
Proof.
  intros Hn. unfold num_to_address, EthUtils.to_checksum_address.
  rewrite drop_hex_neg by assumption.
  set (d := hex_digits (- n)).
  assert (Hd : EthUtils.all_str EthUtils.is_hex_digit d = true)
    by (apply lower_hex_all_hex, hex_digits_lower_hex; lia).
  assert (Hz : zfill 40 (String "x" d)
               = repeat_char "0" (40 - S (String.length d)) +:+ String "x" d)
    by reflexivity.
  rewrite Hz. clear Hz.
  destruct (40 - S (String.length d))%nat as [|[|k]] eqn:Hk.
  - rewrite to_normalized_not_hex; reflexivity.
  - change (repeat_char "0" 1 +:+ String "x" d) with ("0x" +:+ d).
    rewrite to_normalized_prefixed by assumption.
    destruct (Nat.eqb_spec (String.length d) 40); [lia | reflexivity].
  - rewrite to_normalized_not_hex; try reflexivity.
    change (repeat_char "0" (S (S k))) with ("00" +:+ repeat_char "0" k).
    rewrite append_assoc, all_str_append, all_str_append.
    cbn [EthUtils.all_str]. now rewrite !andb_false_r.
Qed.

(** The checksummed form is accepted by [is_checksum_address]. *)
Lemma checksummed_is_checksum address :
  EthUtils.all_str lower_hex_digit address = true ->
  String.length address = 40%nat ->
  EthUtils.is_checksum_address
    ("0x" +:+ casing address (bytes_hex (EthUtils.keccak_text address)))
  = true.
Proof.
  intros Hall Hlen.
  set (hash := bytes_hex (EthUtils.keccak_text address)).
  assert (Hle : (String.length address <= String.length hash)%nat).
  { unfold hash. rewrite length_bytes_hex. unfold EthUtils.keccak_text.
    rewrite length_keccak256. lia. }
  pose proof (casing_all_hex address hash Hall) as Hhex.
  pose proof (length_casing address hash Hle) as Hclen.
  unfold EthUtils.is_checksum_address.
  apply andb_true_intro. split.
  - change (EthUtils.is_hex_address ?v) with (EthUtils.is_address v).
    rewrite is_address_prefixed, Hhex, Hclen, Hlen. reflexivity.
  - apply bool_decide_eq_true.
    apply to_checksum_of_normalized; try assumption.
    rewrite to_normalized_prefixed, Hclen, Hlen by assumption.
    now rewrite lower_casing.
Qed.

(** ** The selector and the encoded input *)

Example keccak256_empty :
  bytes_hex (Keccak.keccak256 [])
  = "c5d2460186f7233c927e7db2dcc703c0e500b653ca82273b7bfad8045d85a470".
Proof. vm_compute. reflexivity. Qed.

Example func_selector_name : func_selector "name()" = [x06; xfd; xde; x03].
Proof. vm_compute. reflexivity. Qed.

Example func_selector_transfer :
  bytes_hex (func_selector "transfer(address,uint256)") = "a9059cbb".
Proof. vm_compute. reflexivity. Qed.

Example checksum_address_mixed_case :
  num_to_address 0x5aaeb6053f3e94c9b9a09f33669435e7ef1beaed
  = Some "0x5aAeb6053F3E94C9b9A09f33669435E7Ef1BeAed".
Proof. vm_compute. reflexivity. Qed.

Example encode_static_arguments :
  bytes_hex <$> encode_input "baz(uint32,bool)"
    [EthAbi.TUint 32; EthAbi.TBool] [EthAbi.VInt 69; EthAbi.VBool true]
  = Some ("cdcd77c0"
      +:+ "0000000000000000000000000000000000000000000000000000000000000045"
      +:+ "0000000000000000000000000000000000000000000000000000000000000001").
Proof. vm_compute. reflexivity. Qed.

Example encode_dynamic_arguments :
  bytes_hex <$> encode_input "sam(bytes,bool,uint256[])"
    [EthAbi.TBytes; EthAbi.TBool; EthAbi.TArray (EthAbi.TUint 256)]
    [EthAbi.VBytes (encode_utf8 "dave"); EthAbi.VBool true;
     EthAbi.VList [EthAbi.VInt 1; EthAbi.VInt 2; EthAbi.VInt 3]]
  = Some ("a5643bf2"
      +:+ "0000000000000000000000000000000000000000000000000000000000000060"
      +:+ "0000000000000000000000000000000000000000000000000000000000000001"
      +:+ "00000000000000000000000000000000000000000000000000000000000000a0"
      +:+ "0000000000000000000000000000000000000000000000000000000000000004"
      +:+ "6461766500000000000000000000000000000000000000000000000000000000"
      +:+ "0000000000000000000000000000000000000000000000000000000000000003"
      +:+ "0000000000000000000000000000000000000000000000000000000000000001"
      +:+ "0000000000000000000000000000000000000000000000000000000000000002"
      +:+ "0000000000000000000000000000000000000000000000000000000000000003").
Proof. vm_compute. reflexivity. Qed.

(** C1: for every non-empty signature [s], [func_selector s] is the first
    four bytes of the Keccak-256 hash of [s], and so is exactly four bytes
    long. *)
Theorem func_selector_keccak_prefix (s : string) :
  s <> "" ->
  func_selector s = firstn 4 (Keccak.keccak256 (encode_utf8 s))
  /\ length (func_selector s) = 4%nat.
Proof.
  intros _. split; [reflexivity|].
  unfold func_selector, EthUtils.keccak_text.
  rewrite length_take, length_keccak256. reflexivity.
Qed.

Lemma func_selector_keccak_prefix_witness :
  func_selector "name()" = firstn 4 (Keccak.keccak256 (encode_utf8 "name()"))
  /\ length (func_selector "name()") = 4%nat.
Proof. apply func_selector_keccak_prefix. discriminate. Defined.

(** C2: [encode_input name types args] is the selector of [name] followed
    by the ABI encoding of [args] against [types] (and raises when that
    encoding raises); with no types and no arguments the encoding is empty,
    so [encode_input "name()" [] []] is exactly the four bytes of the
    selector of ["name()"]. *)
Theorem encode_input_selector_then_arguments :
  (forall name types args,
     encode_input name types args
     = (fun encoded => func_selector name ++ encoded)
         <$> EthAbi.encode types args)
  /\ EthAbi.encode [] [] = Some []
  /\ encode_input "name()" [] [] = Some (func_selector "name()")
  /\ length (func_selector "name()") = 4%nat
  /\ input = Some [x06; xfd; xde; x03].
Proof.
  split; [|split; [|split; [|split]]].
  - intros name types args. unfold encode_input.
    now destruct (EthAbi.encode types args).
  - reflexivity.
  - unfold encode_input. change (EthAbi.encode [] []) with (Some (@nil byte)).
    cbn [mbind option_bind]. now rewrite app_nil_r.
  - unfold func_selector, EthUtils.keccak_text.
    now rewrite length_take, length_keccak256.
  - vm_compute. reflexivity.
Qed.

(** C3: [num_to_address 2050], the script's [CONTRACT_ADDRESS], is a string
    of 42 characters that starts with [0x], is a valid checksummed address,
    and in lower case reads [0x] followed by [802] padded with zeros on the
    left to 40 digits. *)
Theorem contract_address_of_2050 :
  exists addr : string,
    num_to_address 2050 = Some addr
    /\ CONTRACT_ADDRESS = Some addr
    /\ String.length addr = 42%nat
    /\ startswith "0x" addr = true
    /\ EthUtils.is_checksum_address addr = true
    /\ lower addr = "0x" +:+ repeat_char "0" 37 +:+ "802"
    /\ lower addr = "0x0000000000000000000000000000000000000802".
Proof.
  exists "0x0000000000000000000000000000000000000802".
  repeat split; vm_compute; reflexivity.
Qed.

(** C4: for [n >= 0] the function writes [n] in hexadecimal without prefix,
    pads the digits with zeros on the left to 40 characters and hands the
    result to the checksum formatting; below [2^160] this yields the
    mixed-case checksummed address of those 40 digits; when the digits of
    the integer are more than 40 the call raises. *)
Theorem num_to_address_steps (n : Z) :
  (0 <= n ->
     let digits := drop_str 2 (hex n) in
     hex n = "0x" +:+ digits
     /\ int16 digits = Some n
     /\ EthUtils.all_str lower_hex_digit digits = true
     /\ zfill 40 digits
        = repeat_char "0" (40 - String.length digits) +:+ digits
     /\ num_to_address n = EthUtils.to_checksum_address (zfill 40 digits))
  /\ (0 <= n < 2 ^ 160 ->
     let padded := zfill 40 (drop_str 2 (hex n)) in
     exists addr : string,
       num_to_address n = Some addr
       /\ String.length padded = 40%nat
       /\ addr
          = "0x" +:+ casing padded (bytes_hex (EthUtils.keccak_text padded))
       /\ String.length addr = 42%nat
       /\ lower addr = "0x" +:+ padded
       /\ EthUtils.is_checksum_address addr = true)
  /\ ((40 < String.length (hex_digits (Z.abs n)))%nat ->
     num_to_address n = None).
Proof.
  split; [|split].
  - intros Hn digits. unfold digits. rewrite drop_hex_nonneg by assumption.
    pose proof (hex_digits_lower_hex n Hn) as Hd.
    repeat split.
    + unfold hex. destruct (Z.ltb_spec n 0); [lia | reflexivity].
    + now apply int16_hex_digits.
    + exact Hd.
    + apply zfill_hex. now apply lower_hex_all_hex.
    + unfold num_to_address. now rewrite drop_hex_nonneg.
  - intros Hn padded. unfold padded. rewrite drop_hex_nonneg by lia.
    assert (Hall : EthUtils.all_str lower_hex_digit (zfill 40 (hex_digits n)) = true)
      by (apply padded_lower_hex; lia).
    assert (Hlen : String.length (zfill 40 (hex_digits n)) = 40%nat).
    { rewrite length_padded by lia. pose proof (hex_digits_short n).
      change (16 ^ 40) with (2 ^ 160) in *. lia. }
    eexists. split; [now apply num_to_address_in_range|].
    set (hash := bytes_hex _).
    assert (Hle : (String.length (zfill 40 (hex_digits n)) <= String.length hash)%nat).
    { unfold hash. rewrite length_bytes_hex. unfold EthUtils.keccak_text.
      rewrite length_keccak256. lia. }
    repeat split.
    + exact Hlen.
    + rewrite length_append, length_casing, Hlen by assumption. reflexivity.
    + rewrite lower_prefixed, lower_casing by assumption. reflexivity.
    + now apply checksummed_is_checksum.
  - intros Hlen. destruct (Z_lt_le_dec n 0) as [Hneg|Hpos].
    + now apply num_to_address_negative.
    + rewrite Z.abs_eq in Hlen by assumption.
      now apply num_to_address_too_long.
Qed.

Lemma num_to_address_steps_witness :
  (exists addr : string,
     num_to_address 2050 = Some addr
     /\ String.length (zfill 40 (drop_str 2 (hex 2050))) = 40%nat
     /\ addr
        = "0x" +:+ casing (zfill 40 (drop_str 2 (hex 2050)))
            (bytes_hex (EthUtils.keccak_text (zfill 40 (drop_str 2 (hex 2050)))))
     /\ String.length addr = 42%nat
     /\ lower addr = "0x" +:+ zfill 40 (drop_str 2 (hex 2050))
     /\ EthUtils.is_checksum_address addr = true)
  /\ num_to_address (2 ^ 160) = None.
Proof.
  split.
  - apply (proj1 (proj2 (num_to_address_steps 2050))). lia.
  - apply (proj2 (proj2 (num_to_address_steps (2 ^ 160)))).
    vm_compute. lia.
Defined.

(** C10: for every negative [n], [hex n] starts with [-0x], so the string
    left after the first two characters starts with [x] and is not a hex
    string, and [num_to_address n] raises instead of returning an address. *)
Theorem num_to_address_negative_raises (n : Z) :
  n < 0 ->
  startswith "-0x" (hex n) = true
  /\ startswith "x" (drop_str 2 (hex n)) = true
  /\ EthUtils.is_hexstr (drop_str 2 (hex n)) = false
  /\ num_to_address n = None.
Proof.
  intros Hn. rewrite drop_hex_neg by assumption.
  repeat split.
  - unfold hex. destruct (Z.ltb_spec n 0); [reflexivity | lia].
  - now apply num_to_address_negative.
Qed.

Lemma num_to_address_negative_raises_witness :
  startswith "-0x" (hex (-2050)) = true
  /\ startswith "x" (drop_str 2 (hex (-2050))) = true
  /\ EthUtils.is_hexstr (drop_str 2 (hex (-2050))) = false
  /\ num_to_address (-2050) = None.
Proof. apply num_to_address_negative_raises. lia. Defined.

(** ** Runs of programs *)

Section ClientProperties.

Import Substrate.

Context {Metadata ScaleObject Runtime Extrinsic Receipt Env : Type}.

Abbreviation op :=
  (Substrate.op Metadata ScaleObject Runtime Extrinsic Receipt).
Abbreviation prog :=
  (Substrate.prog Metadata ScaleObject Runtime Extrinsic Receipt).
Abbreviation event :=
  (Substrate.event Metadata ScaleObject Runtime Extrinsic Receipt).

Variable handler : forall X : Type, op X -> Env -> option X * Env.

Lemma run_bind {A B : Type} (p : prog A) (f : A -> prog B) : forall env,
  run handler (bind p f) env
  = match run handler p env with
    | (t, env', Some a) =>
        let '(t', env'', r) := run handler (f a) env' in (t ++ t', env'', r)
    | (t, env', None) => (t, env', None)
    end.
Proof.
  induction p as [a| |X o k IH]; intros env; cbn.
  - now destruct (run handler (f a) env) as [[t' env''] r].
  - reflexivity.
  - destruct (handler X o env) as [[x|] env']; [|reflexivity].
    rewrite IH. destruct (run handler (k x) env') as [[t e] [a|]];
      [|reflexivity].
    now destruct (run handler (f a) e) as [[t' e'] r].
Qed.

Lemma run_lift {A : Type} (r : option A) env :
  run handler (lift r) env = ([], env, r).
Proof. now destruct r. Qed.

Lemma all_ops_bind (P : event -> Prop) {A B : Type}
    (p : prog A) (f : A -> prog B) :
  all_ops P p -> (forall a, all_ops P (f a)) -> all_ops P (bind p f).
Proof.
  intros Hp Hf. induction Hp as [a| |X o k Ho Hk IH]; cbn.
  - apply Hf.
  - constructor.
  - constructor; [exact Ho | exact IH].
Qed.

Lemma all_ops_lift (P : event -> Prop) {A : Type} (r : option A) :
  all_ops P (lift r).
Proof. destruct r; constructor. Qed.

Lemma all_ops_call (P : event -> Prop) {X : Type} (o : op X) :
  P (Event o) -> all_ops P (call o).
Proof. intros Ho. constructor; [exact Ho | constructor]. Qed.

(** What holds of every operation of a program holds of every event of
    each of its runs. *)
Lemma all_ops_trace (P : event -> Prop) {A : Type} (p : prog A) :
  all_ops P p -> forall env, Forall P (trace handler p env).
Proof.
  unfold trace.
  induction 1 as [a| |X o k Ho Hk IH]; intros env; cbn; try constructor.
  destruct (handler X o env) as [[x|] env']; cbn.
  - specialize (IH x env').
    destruct (run handler (k x) env') as [[t e] r]. now constructor.
  - now repeat constructor.
Qed.

(** ** [call_contract] *)

(** A run of [call_contract], answer by answer. *)
Lemma run_call_contract interface keypair contract_addr data env :
  let d := call_descriptor keypair contract_addr data in
  run handler (call_contract interface keypair contract_addr data) env
  = match handler _ (get_metadata interface) env with
    | (Some (meta, i1), env1) =>
        match handler _ (create_scale_object i1 "Call" meta) env1 with
        | (Some (obj, i2), env2) =>
            match handler _ (scale_encode obj d) env2 with
            | (Some cc, env3) =>
                ([Event (get_metadata interface);
                  Event (create_scale_object i1 "Call" meta);
                  Event (scale_encode obj d);
                  Event (print cc)],
                 snd (handler _ (print cc) env3),
                 match fst (handler _ (print cc) env3) with
                 | Some _ => Some (i2, keypair)
                 | None => None
                 end)
            | (None, env3) =>
                ([Event (get_metadata interface);
                  Event (create_scale_object i1 "Call" meta);
                  Event (scale_encode obj d)], env3, None)
            end
        | (None, env2) =>
            ([Event (get_metadata interface);
              Event (create_scale_object i1 "Call" meta)], env2, None)
        end
    | (None, env1) => ([Event (get_metadata interface)], env1, None)
    end.
Proof.
  unfold call_contract. cbn.
  destruct (handler _ (get_metadata interface) env) as [[[meta i1]|] env1];
    [cbn|reflexivity].
  destruct (handler _ (create_scale_object i1 "Call" meta) env1)
    as [[[obj i2]|] env2]; [cbn|reflexivity].
  destruct (handler _ (scale_encode obj _) env2) as [[cc|] env3];
    [cbn|reflexivity].
  now destruct (handler _ (print cc) env3) as [[[]|] env4].
Qed.

Lemma call_contract_ops (P : event -> Prop)
    interface keypair contract_addr data :
  (forall self, P (Event (get_metadata self))) ->
  (forall self meta, P (Event (create_scale_object self "Call" meta))) ->
  (forall obj,
     P (Event (scale_encode obj
                 (call_descriptor keypair contract_addr data)))) ->
  (forall cc, P (Event (print cc))) ->
  all_ops P (call_contract interface keypair contract_addr data).
Proof.
  intros Hmeta Hobj Henc Hprint. unfold call_contract. cbn.
  constructor; [apply Hmeta|]. intros [meta i1].
  constructor; [apply Hobj|]. intros [obj i2].
  constructor; [apply Henc|]. intros cc.
  constructor; [apply Hprint|]. intros _. constructor.
Qed.

(** ** [init_interface] *)

(** A type string that is not composite names what is registered under
    its lower-case name. *)
Lemma get_decoder_class_plain derive registry type_string :
  EthUtils.all_str is_space type_string = false ->
  is_composite type_string = false ->
  get_decoder_class derive registry type_string
  = class_at registry (lower type_string).
Proof.
  intros Hspace Hshape. unfold get_decoder_class, class_at.
  rewrite Hspace, Hshape.
  now destruct (registry !! lower type_string) as [[c|]|].
Qed.

(** The registry after the overrides: each alias has the class its target
    had when it was its turn. *)
Lemma update_type_registry_types_overrides derive registry :
  update_type_registry_types derive registry
    [("Address", PStr "AccountId");
     ("LookupSource", PStr "AccountId");
     ("Account", PDict [
        ("type", PStr "struct");
        ("type_mapping", PList [
           PList [PStr "nonce"; PStr "U256"];
           PList [PStr "balance"; PStr "U256"]])]);
     ("AccountId", PStr "H160");
     ("Transaction", PDict [
        ("type", PStr "struct");
        ("type_mapping", PList [
           PList [PStr "nonce"; PStr "U256"];
           PList [PStr "gas_price"; PStr "U256"];
           PList [PStr "gas_limit"; PStr "U256"];
           PList [PStr "action"; PStr "EthTransactionAction"];
           PList [PStr "value"; PStr "U256"];
           PList [PStr "input"; PStr "Bytes"];
           PList [PStr "signature"; PStr "EthTransactionSignature"]])]);
     ("Signature", PDict [
        ("type", PStr "struct");
        ("type_mapping", PList [
           PList [PStr "v"; PStr "u64"];
           PList [PStr "r"; PStr "H256"];
           PList [PStr "s"; PStr "H256"]])])]
  = Some
      (<["signature" :=
           Some (Custom "Signature" (Preset "Struct")
                   [("type_mapping", Plain (PList [
                       PList [PStr "v"; PStr "u64"];
                       PList [PStr "r"; PStr "H256"];
                       PList [PStr "s"; PStr "H256"]]))])]>
       (<["transaction" :=
            Some (Custom "Transaction" (Preset "Struct")
                    [("type_mapping", Plain (PList [
                        PList [PStr "nonce"; PStr "U256"];
                        PList [PStr "gas_price"; PStr "U256"];
                        PList [PStr "gas_limit"; PStr "U256"];
                        PList [PStr "action"; PStr "EthTransactionAction"];
                        PList [PStr "value"; PStr "U256"];
                        PList [PStr "input"; PStr "Bytes"];
                        PList [PStr "signature";
                               PStr "EthTransactionSignature"]]))])]>
        (<["accountid" := class_at registry "h160"]>
         (<["account" :=
              Some (Custom "Account" (Preset "Struct")
                      [("type_mapping", Plain (PList [
                          PList [PStr "nonce"; PStr "U256"];
                          PList [PStr "balance"; PStr "U256"]]))])]>
          (<["lookupsource" := class_at registry "accountid"]>
           (<["address" := class_at registry "accountid"]> registry)))))).
Proof.
  cbn [update_type_registry_types entry_class class_of_value truthy
       dict_get_or dict_get from_option String.eqb Ascii.eqb Bool.eqb
       mbind option_bind id].
  rewrite !get_decoder_class_plain by reflexivity.
  change (lower "AccountId") with "accountid".
  change (lower "H160") with "h160".
  change (lower "Address") with "address".
  change (lower "LookupSource") with "lookupsource".
  change (lower "Account") with "account".
  change (lower "Transaction") with "transaction".
  change (lower "Signature") with "signature".
  unfold class_at.
  rewrite !lookup_insert_ne by discriminate.
  reflexivity.
Qed.

Lemma config_update_type_registry_overrides derive config :
  config_update_type_registry derive config type_registry_overrides
  = registry ←
      update_type_registry_types derive (types config)
        (match py_get "types" type_registry_overrides with
         | Some (PDict types_dict) => types_dict
         | _ => []
         end);
    Some {| types := registry;
            active_spec_version_id := PNone;
            versioning := PNone;
            runtime_upgrades := PNone |}.
Proof. reflexivity. Qed.

Lemma run_init_interface env :
  run handler init_interface env
  = match handler _ (new_interface "ws://127.0.0.1:9944" true) env with
    | (Some s0, env1) =>
        match handler _ (init_runtime s0) env1 with
        | (Some s1, env2) =>
            ([Event (new_interface "ws://127.0.0.1:9944" true);
              Event (init_runtime s0);
              Event (update_type_registry s1 type_registry_overrides)],
             snd (handler _ (update_type_registry s1 type_registry_overrides)
                    env2),
             fst (handler _ (update_type_registry s1 type_registry_overrides)
                    env2))
        | (None, env2) =>
            ([Event (new_interface "ws://127.0.0.1:9944" true);
              Event (init_runtime s0)], env2, None)
        end
    | (None, env1) =>
        ([Event (new_interface "ws://127.0.0.1:9944" true)], env1, None)
    end.
Proof.
  unfold init_interface. cbn -[type_registry_overrides].
  destruct (handler _ (new_interface _ _) env) as [[s0|] env1];
    [cbn -[type_registry_overrides]|reflexivity].
  destruct (handler _ (init_runtime s0) env1) as [[s1|] env2];
    [cbn -[type_registry_overrides]|reflexivity].
  now destruct (handler _ (update_type_registry s1 _) env2) as [[s2|] env3].
Qed.

Lemma init_interface_ops (P : event -> Prop) :
  (forall url preset, P (Event (new_interface url preset))) ->
  (forall self, P (Event (init_runtime self))) ->
  (forall self, P (Event (update_type_registry self type_registry_overrides))) ->
  all_ops P init_interface.
Proof.
  intros Hnew Hinit Hupdate. unfold init_interface.
  apply all_ops_bind; [now apply all_ops_call|]. intros s0.
  apply all_ops_bind; [now apply all_ops_call|]. intros s1.
  apply all_ops_bind; [now apply all_ops_call|]. intros s2. constructor.
Qed.

(** ** The whole script *)

Lemma script_ops (P : event -> Prop) :
  (forall url preset, P (Event (new_interface url preset))) ->
  (forall self, P (Event (init_runtime self))) ->
  (forall self, P (Event (update_type_registry self type_registry_overrides))) ->
  (forall key crypto, P (Event (create_from_private_key key crypto))) ->
  (forall self, P (Event (get_metadata self))) ->
  (forall self type_string meta,
     P (Event (create_scale_object self type_string meta))) ->
  (forall obj value, P (Event (scale_encode obj value))) ->
  (forall cc, P (Event (print cc))) ->
  all_ops P script.
Proof.
  intros Hnew Hinit Hupdate Hkey Hmeta Hobj Henc Hprint. unfold script.
  apply all_ops_bind; [apply all_ops_lift|]. intros contract_address.
  apply all_ops_bind; [now apply init_interface_ops|]. intros interface.
  apply all_ops_bind; [now apply all_ops_call|]. intros keypair.
  apply all_ops_bind; [apply all_ops_lift|]. intros data.
  now apply call_contract_ops.
Qed.

Lemma CONTRACT_ADDRESS_value :
  CONTRACT_ADDRESS = Some "0x0000000000000000000000000000000000000802".
Proof. vm_compute. reflexivity. Qed.

Lemma input_value : input = Some [x06; xfd; xde; x03].
Proof. vm_compute. reflexivity. Qed.

(** A run of the script is a run of [init_interface], the creation of the
    keypair, and a run of [call_contract] on the address of 2050 and the
    input of [name()]. *)
Lemma run_script env :
  run handler script env
  = match run handler init_interface env with
    | (t1, env1, Some interface) =>
        match handler _ (create_from_private_key alith_private_key ECDSA)
                env1 with
        | (Some keypair, env2) =>
            let '(t2, env3, r) :=
              run handler
                (call_contract interface keypair
                   "0x0000000000000000000000000000000000000802"
                   [x06; xfd; xde; x03])
                env2 in
            (t1 ++ Event (create_from_private_key alith_private_key ECDSA)
                :: t2, env3, r)
        | (None, env2) =>
            (t1 ++ [Event (create_from_private_key alith_private_key
                             ECDSA)], env2, None)
        end
    | (t1, env1, None) => (t1, env1, None)
    end.
Proof.
  unfold script. rewrite CONTRACT_ADDRESS_value, input_value.
  change (lift (Some ?a) ≫= ?f) with (f a). cbv beta.
  change (init_interface ≫= ?f) with (bind init_interface f).
  rewrite run_bind.
  destruct (run handler init_interface env) as [[t1 env1] [interface|]];
    [|reflexivity].
  cbn -[call_contract].
  destruct (handler _ (create_from_private_key _ _) env1)
    as [[keypair|] env2]; [|reflexivity].
  cbn -[call_contract].
  now destruct (run handler (call_contract _ _ _ _) env2) as [[t2 env3] r].
Qed.

(** A query has one answer. *)
Lemma query_answer {X : Type} (o : op X) e1 e2 :
  queries_functional handler ->
  is_query o = true ->
  handler X o e2 = (fst (handler X o e1), snd (handler X o e2)).
Proof.
  intros Hq Ho. rewrite (Hq X o e1 e2 Ho). now destruct (handler X o e2).
Qed.

(** Under queries with one answer, a run of [call_contract] performs the
    same operations in every state of the environment. *)
Lemma call_contract_trace interface keypair contract_addr data e1 e2 :
  queries_functional handler ->
  trace handler (call_contract interface keypair contract_addr data) e1
  = trace handler (call_contract interface keypair contract_addr data) e2.
Proof.
  intros Hq. unfold trace. rewrite !run_call_contract.
  rewrite (query_answer (get_metadata interface) e1 e2 Hq eq_refl).
  destruct (handler _ (get_metadata interface) e1) as [[[meta i1]|] env1];
    [|reflexivity].
  cbn [fst].
  rewrite (query_answer (create_scale_object i1 "Call" meta) env1
             (snd (handler _ (get_metadata interface) e2)) Hq eq_refl).
  destruct (handler _ (create_scale_object i1 "Call" meta) env1)
    as [[[obj i2]|] env2]; [|reflexivity].
  cbn [fst].
  rewrite (query_answer (scale_encode obj _) env2
             (snd (handler _ (create_scale_object i1 "Call" meta)
                     (snd (handler _ (get_metadata interface) e2))))
             Hq eq_refl).
  now destruct (handler _ (scale_encode obj _) env2) as [[cc|] env3].
Qed.

(** Under queries with one answer, a run of [init_interface] performs the
    same operations and returns the same in every state of the
    environment. *)
Lemma init_interface_functional e1 e2 :
  queries_functional handler ->
  trace handler init_interface e1 = trace handler init_interface e2
  /\ result handler init_interface e1 = result handler init_interface e2.
Proof.
  intros Hq. unfold trace, result. rewrite !run_init_interface.
  rewrite (query_answer (new_interface _ _) e1 e2 Hq eq_refl).
  destruct (handler _ (new_interface _ _) e1) as [[s0|] env1];
    [|split; reflexivity].
  cbn [fst].
  rewrite (query_answer (init_runtime s0) env1
             (snd (handler _ (new_interface "ws://127.0.0.1:9944" true) e2))
             Hq eq_refl).
  destruct (handler _ (init_runtime s0) env1) as [[s1|] env2];
    [|split; reflexivity].
  cbn [fst snd]. split; [reflexivity|].
  apply (Hq _ (update_type_registry s1 type_registry_overrides)).
  reflexivity.
Qed.

(** ** The call, the registry and the keypair *)

(** C5: [call_contract] hands the encoder one call descriptor, of module
    [EVM] and function [call], whose arguments are: the source, [0x]
    followed by the hex of the keypair's public key; the target, the given
    contract address; the input, the hex of the given bytes; value 0; gas
    limit and maximal fee per gas 10000000; no priority fee, no nonce, and
    an empty access list.  The codec object it encodes with is created for
    the type [Call]. *)
Theorem call_contract_descriptor interface keypair contract_addr data env :
  let d := call_descriptor keypair contract_addr data in
  let p := call_contract interface keypair contract_addr data in
  py_get "call_module" d = Some (PStr "EVM")
  /\ py_get "call_function" d = Some (PStr "call")
  /\ py_get "call_args" d
     = Some (PDict [
         ("source", PStr ("0x" +:+ bytes_hex (public_key keypair)));
         ("target", PStr contract_addr);
         ("input", PStr (bytes_hex data));
         ("value", PInt 0);
         ("gas_limit", PInt 10000000);
         ("max_fee_per_gas", PInt 10000000);
         ("max_priority_fee_per_gas", PNone);
         ("nonce", PNone);
         ("access_list", PList [])])
  /\ all_ops (fun e =>
       match e with
       | Event (scale_encode _ value) => value = d
       | Event (create_scale_object _ type_string _) => type_string = "Call"
       | _ => True
       end) p
  /\ Forall (fun value => value = d) (encoded_values (trace handler p env))
  /\ (is_Some (result handler p env) ->
      encoded_values (trace handler p env) = [d]).
Proof.
  intros d p. repeat split.
  - now apply call_contract_ops.
  - unfold trace, p. rewrite run_call_contract. fold d.
    destruct (handler _ (get_metadata interface) env) as [[[meta i1]|] env1];
      [|now cbn].
    destruct (handler _ (create_scale_object i1 "Call" meta) env1)
      as [[[obj i2]|] env2]; [|now cbn].
    destruct (handler _ (scale_encode obj d) env2) as [[cc|] env3];
      cbn; now repeat constructor.
  - unfold trace, result, p. rewrite run_call_contract. fold d.
    destruct (handler _ (get_metadata interface) env) as [[[meta i1]|] env1];
      [|now intros []].
    destruct (handler _ (create_scale_object i1 "Call" meta) env1)
      as [[[obj i2]|] env2]; [|now intros []].
    destruct (handler _ (scale_encode obj d) env2) as [[cc|] env3];
      [reflexivity | now intros []].
Qed.

(** C6: no run of the script, and no run of [call_contract], creates a
    signed extrinsic or submits one, whatever the node and the library
    answer; a run of [call_contract] that returns has asked for the
    metadata, created the codec object, encoded the descriptor and printed
    what the encoder answered, and nothing else. *)
Theorem script_never_signs_or_submits env :
  Forall (fun e => is_signing e = false /\ is_submission e = false)
    (trace handler script env)
  /\ (forall interface keypair contract_addr data env',
        Forall (fun e => is_signing e = false /\ is_submission e = false)
          (trace handler
             (call_contract interface keypair contract_addr data) env'))
  /\ (forall interface keypair contract_addr data env',
        let p := call_contract interface keypair contract_addr data in
        is_Some (result handler p env') ->
        exists meta i1 obj cc env3,
          trace handler p env'
          = [Event (get_metadata interface);
             Event (create_scale_object i1 "Call" meta);
             Event (scale_encode obj
                      (call_descriptor keypair contract_addr data));
             Event (print cc)]
          /\ fst (handler _ (scale_encode obj
                    (call_descriptor keypair contract_addr data)) env3)
             = Some cc
          /\ stdout (trace handler p env') = [cc]).
Proof.
  split; [|split].
  - apply all_ops_trace, script_ops; now intros.
  - intros. apply all_ops_trace, call_contract_ops; now intros.
  - intros interface keypair contract_addr data env' p.
    unfold trace, result, p. rewrite run_call_contract.
    destruct (handler _ (get_metadata interface) env') as [[[meta i1]|] env1];
      [|now intros []].
    destruct (handler _ (create_scale_object i1 "Call" meta) env1)
      as [[[obj i2]|] env2]; [|now intros []].
    destruct (handler _ (scale_encode obj _) env2) as [[cc|] env3] eqn:Henc;
      [|now intros []].
    intros _. exists meta, i1, obj, cc, env2. now rewrite Henc.
Qed.


(** C8: [call_contract] is deterministic.  When the interface, the node and
    the library answer a query by the call alone (the same chain state and
    metadata), two runs of [call_contract] on the same interface, keypair,
    address and input perform the same operations and print the same
    bytes; a run that returns has printed one byte string, in either run
    what the encoder makes of the descriptor of these inputs on the codec
    object of type [Call].  Likewise two runs of the whole script: same
    operations, same output, and a run that returns has printed the
    encoding of the call of [name()] at the address of 2050. *)
Theorem call_contract_deterministic :
  queries_functional handler ->
  (forall interface keypair contract_addr data e1 e2,
     let p := call_contract interface keypair contract_addr data in
     let d := call_descriptor keypair contract_addr data in
     trace handler p e1 = trace handler p e2
     /\ stdout (trace handler p e1) = stdout (trace handler p e2)
     /\ (is_Some (result handler p e1) ->
         exists meta i1 obj i2 cc,
           (forall e,
              fst (handler _ (get_metadata interface) e) = Some (meta, i1))
           /\ (forall e,
                 fst (handler _ (create_scale_object i1 "Call" meta) e)
                 = Some (obj, i2))
           /\ (forall e, fst (handler _ (scale_encode obj d) e) = Some cc)
           /\ stdout (trace handler p e1) = [cc]
           /\ stdout (trace handler p e2) = [cc]))
  /\ (forall e1 e2,
     trace handler script e1 = trace handler script e2
     /\ stdout (trace handler script e1) = stdout (trace handler script e2)
     /\ (is_Some (result handler script e1) ->
         exists keypair obj cc,
           (forall e,
              fst (handler _ (create_from_private_key alith_private_key
                                ECDSA) e) = Some keypair)
           /\ (forall e,
                 fst (handler _
                        (scale_encode obj
                           (call_descriptor keypair
                              "0x0000000000000000000000000000000000000802"
                              (func_selector "name()"))) e) = Some cc)
           /\ stdout (trace handler script e1) = [cc]
           /\ stdout (trace handler script e2) = [cc])).
Proof.
  intros Hq.
  assert (Hcall : forall interface keypair contract_addr data e1 e2,
    let p := call_contract interface keypair contract_addr data in
    let d := call_descriptor keypair contract_addr data in
    is_Some (result handler p e1) ->
    exists meta i1 obj i2 cc,
      (forall e, fst (handler _ (get_metadata interface) e) = Some (meta, i1))
      /\ (forall e,
            fst (handler _ (create_scale_object i1 "Call" meta) e)
            = Some (obj, i2))
      /\ (forall e, fst (handler _ (scale_encode obj d) e) = Some cc)
      /\ stdout (trace handler p e1) = [cc]
      /\ stdout (trace handler p e2) = [cc]).
  { intros interface keypair contract_addr data e1 e2 p d. subst p.
    rewrite <- (call_contract_trace interface keypair contract_addr data
                  e1 e2 Hq).
    unfold trace, result. rewrite run_call_contract. fold d.
    destruct (handler _ (get_metadata interface) e1)
      as [[[meta i1]|] env1] eqn:H1; [|now intros []].
    destruct (handler _ (create_scale_object i1 "Call" meta) env1)
      as [[[obj i2]|] env2] eqn:H2; [|now intros []].
    destruct (handler _ (scale_encode obj d) env2) as [[cc|] env3] eqn:H3;
      [|now intros []].
    intros _. exists meta, i1, obj, i2, cc.
    split; [|split; [|split; [|split; reflexivity]]].
    - intros e. rewrite (Hq _ (get_metadata interface) e e1 eq_refl).
      now rewrite H1.
    - intros e.
      rewrite (Hq _ (create_scale_object i1 "Call" meta) e env1 eq_refl).
      now rewrite H2.
    - intros e. rewrite (Hq _ (scale_encode obj d) e env2 eq_refl).
      now rewrite H3. }
  split.
  - intros interface keypair contract_addr data e1 e2 p d.
    pose proof (call_contract_trace interface keypair contract_addr data
                  e1 e2 Hq) as Ht.
    fold p in Ht. split; [exact Ht|]. split; [now rewrite Ht|].
    apply Hcall.
  - intros e1 e2.
    assert (Ht : trace handler script e1 = trace handler script e2).
    { unfold trace. rewrite !run_script.
      destruct (init_interface_functional e1 e2 Hq) as [Hti Hri].
      unfold trace, result in Hti, Hri.
      destruct (run handler init_interface e1) as [[t1 env1] r1],
               (run handler init_interface e2) as [[t1' env1'] r1'].
      cbn [fst snd] in Hti, Hri. subst t1' r1'.
      destruct r1 as [interface|]; [|reflexivity].
      rewrite (query_answer (create_from_private_key alith_private_key ECDSA)
                 env1 env1' Hq eq_refl).
      destruct (handler _ (create_from_private_key _ _) env1)
        as [[kp|] env2]; [|reflexivity].
      cbn [fst].
      pose proof (call_contract_trace interface kp
                    "0x0000000000000000000000000000000000000802"
                    [x06; xfd; xde; x03] env2
                    (snd (handler _ (create_from_private_key
                                       alith_private_key ECDSA) env1'))
                    Hq) as Htc.
      unfold trace in Htc.
      destruct (run handler (call_contract _ _ _ _) env2) as [[t2 env3] r2],
               (run handler (call_contract _ _ _ _) _) as [[t2' env3'] r2'].
      cbn [fst snd] in *. now subst. }
    split; [exact Ht|]. split; [now rewrite Ht|].
    rewrite <- Ht. rewrite func_selector_name.
    unfold trace, result. rewrite run_script.
    destruct (run handler init_interface e1) as [[t1 env1] [interface|]]
      eqn:Hinit; [|now intros []].
    assert (Hout : stdout t1 = []).
    { pose proof (f_equal (fun r => fst (fst r)) Hinit) as Ht1.
      rewrite run_init_interface in Ht1. cbn [fst] in Ht1.
      destruct (handler _ (new_interface _ _) e1) as [[s0|] env0];
        [|now subst].
      destruct (handler _ (init_runtime s0) env0) as [[s1|] env0'];
        now subst. }
    destruct (handler _ (create_from_private_key _ _) env1)
      as [[kp|] env2] eqn:Hkey; [|now intros []].
    pose proof (Hcall interface kp
                  "0x0000000000000000000000000000000000000802"
                  [x06; xfd; xde; x03] env2 env2) as Hc.
    unfold trace, result in Hc.
    destruct (run handler (call_contract _ _ _ _) env2) as [[t2 env3] r2].
    cbn [fst snd] in *. intros Hsome.
    destruct (Hc Hsome) as (meta & i1 & obj & i2 & cc & _ & _ & Henc & Hcc & _).
    exists kp, obj, cc. split; [|split; [exact Henc|]].
    + intros e.
      rewrite (Hq _ (create_from_private_key alith_private_key ECDSA)
                 e env1 eq_refl).
      now rewrite Hkey.
    + assert (Hstd : stdout
                (t1 ++ Event (create_from_private_key alith_private_key ECDSA)
                    :: t2) = [cc]).
      { clear -Hout Hcc. induction t1 as [|[X o] t1 IH]; [exact Hcc|].
        destruct o; cbn in Hout |- *; try (now apply IH); discriminate. }
      now split.
Qed.

(** C9: [call_contract] leaves the keypair as it was: the keypair it
    returns is the one it was given, no operation it performs is passed a
    keypair, and all it uses of the keypair is the public key, in the
    source of the call. *)
Theorem call_contract_keeps_keypair interface keypair contract_addr data env :
  let p := call_contract interface keypair contract_addr data in
  (forall interface' keypair',
     result handler p env = Some (interface', keypair') ->
     keypair' = keypair)
  /\ all_ops (fun e => keypair_arguments e = []) p
  /\ Forall (fun e => keypair_arguments e = []) (trace handler p env)
  /\ py_get "source" <$> py_get "call_args"
       (call_descriptor keypair contract_addr data)
     = Some (Some (PStr ("0x" +:+ bytes_hex (public_key keypair))))
  /\ (forall other : Keypair,
       public_key other = public_key keypair ->
       let q := call_contract interface other contract_addr data in
       trace handler q env = trace handler p env
       /\ fst <$> result handler q env = fst <$> result handler p env).
Proof.
  intros p.
  assert (Hops : all_ops (fun e => keypair_arguments e = []) p)
    by now apply call_contract_ops.
  split; [|split; [exact Hops|split; [now apply all_ops_trace|split]]].
  - intros interface' keypair'. unfold result, p. rewrite run_call_contract.
    destruct (handler _ (get_metadata interface) env) as [[[meta i1]|] env1];
      [|discriminate].
    destruct (handler _ (create_scale_object i1 "Call" meta) env1)
      as [[[obj i2]|] env2]; [|discriminate].
    destruct (handler _ (scale_encode obj _) env2) as [[cc|] env3];
      [|discriminate].
    cbn. destruct (handler _ (print cc) env3) as [[[]|] env4];
      [|discriminate].
    cbn. now intros [= _ <-].
  - reflexivity.
  - intros other Hkey q. unfold trace, result, p, q.
    rewrite !run_call_contract. unfold call_descriptor. rewrite Hkey.
    destruct (handler _ (get_metadata interface) env) as [[[meta i1]|] env1];
      [|easy].
    destruct (handler _ (create_scale_object i1 "Call" meta) env1)
      as [[[obj i2]|] env2]; [|easy].
    destruct (handler _ (scale_encode obj _) env2) as [[cc|] env3]; [|easy].
    cbn. now destruct (handler _ (print cc) env3) as [[[]|] env4].
Qed.

End ClientProperties.

(** ** Runs against the mock *)

Import Substrate.

Lemma mock_queries_functional :
  queries_functional Mock.handler.
Proof. intros X o e1 e2 _. now destruct o. Defined.

Lemma mock_call_returns :
  is_Some (result Mock.handler Mock.call_name 0%nat).
Proof. vm_compute. eauto. Defined.

Lemma call_contract_descriptor_witness :
  encoded_values
    (trace Mock.handler Mock.call_name 0%nat)
  = [call_descriptor Mock.keypair
       "0x0000000000000000000000000000000000000802" [x06; xfd; xde; x03]].
Proof.
  apply (call_contract_descriptor Mock.handler Mock.interface
           Mock.keypair "0x0000000000000000000000000000000000000802"
           [x06; xfd; xde; x03] 0%nat).
  exact mock_call_returns.
Defined.

Lemma script_never_signs_or_submits_witness :
  exists meta i1 obj cc env3,
    trace Mock.handler Mock.call_name 0%nat
    = [Event (get_metadata Mock.interface);
       Event (create_scale_object i1 "Call" meta);
       Event
         (scale_encode obj
            (call_descriptor Mock.keypair
               "0x0000000000000000000000000000000000000802"
               [x06; xfd; xde; x03]));
       Event (print cc)]
    /\ fst (Mock.handler _
              (scale_encode obj
                 (call_descriptor Mock.keypair
                    "0x0000000000000000000000000000000000000802"
                    [x06; xfd; xde; x03])) env3)
       = Some cc
    /\ stdout
         (trace Mock.handler Mock.call_name 0%nat)
       = [cc].
Proof.
  apply (proj2 (proj2 (script_never_signs_or_submits
                         Mock.handler 0%nat))).
  exact mock_call_returns.
Defined.


Lemma call_contract_deterministic_witness :
  let p := Mock.call_name in
  let d :=
    call_descriptor Mock.keypair
      "0x0000000000000000000000000000000000000802" [x06; xfd; xde; x03] in
  trace Mock.handler p 0%nat = trace Mock.handler p 7%nat
  /\ stdout (trace Mock.handler p 0%nat) = stdout (trace Mock.handler p 7%nat)
  /\ (is_Some (result Mock.handler p 0%nat) ->
      exists meta i1 obj i2 cc,
        (forall e,
           fst (Mock.handler _ (get_metadata Mock.interface) e)
           = Some (meta, i1))
        /\ (forall e,
              fst (Mock.handler _ (create_scale_object i1 "Call" meta) e)
              = Some (obj, i2))
        /\ (forall e, fst (Mock.handler _ (scale_encode obj d) e) = Some cc)
        /\ stdout (trace Mock.handler p 0%nat) = [cc]
        /\ stdout (trace Mock.handler p 7%nat) = [cc]).
Proof.
  apply (proj1 (call_contract_deterministic Mock.handler
                  mock_queries_functional)
           Mock.interface Mock.keypair
           "0x0000000000000000000000000000000000000802"
           [x06; xfd; xde; x03] 0%nat 7%nat).
Defined.

Lemma call_contract_keeps_keypair_witness :
  trace Mock.handler
    (call_contract Mock.interface
       {| public_key := Mock.alith_address;
          private_key := [x01];
          crypto_type := SR25519 |}
       "0x0000000000000000000000000000000000000802" [x06; xfd; xde; x03])
    0%nat
  = trace Mock.handler Mock.call_name 0%nat
  /\ fst <$> result Mock.handler
       (call_contract Mock.interface
          {| public_key := Mock.alith_address;
             private_key := [x01];
             crypto_type := SR25519 |}
          "0x0000000000000000000000000000000000000802" [x06; xfd; xde; x03])
       0%nat
     = fst <$> result Mock.handler Mock.call_name 0%nat.
Proof.
  apply (proj2 (proj2 (proj2 (proj2
           (call_contract_keeps_keypair Mock.handler Mock.interface
              Mock.keypair "0x0000000000000000000000000000000000000802"
              [x06; xfd; xde; x03] 0%nat))))).
  reflexivity.
Defined.

(** * Further properties of the helpers *)

(** ** The address as a number *)

Lemma hex_value_upper c :
  lower_hex_digit c = true ->
  EthUtils.hex_value (upper_char c) = EthUtils.hex_value c.
Proof. each_ascii c; vm_compute; congruence. Qed.

Lemma hex_value_case_char c h :
  lower_hex_digit c = true ->
  EthUtils.hex_value (case_char c h) = EthUtils.hex_value c.
Proof.
  intros Hc. unfold case_char.
  destruct (EthUtils.hex_value h) as [v|]; [destruct (7 <? v)|];
    auto using hex_value_upper.
Qed.

Lemma int16_from_casing address : forall hash acc,
  (String.length address <= String.length hash)%nat ->
  EthUtils.all_str lower_hex_digit address = true ->
  int16_from acc (casing address hash) = int16_from acc address.
Proof.
  induction address as [|c address IH]; intros [|h hash] acc Hle Hall;
    simpl in *; try lia; try reflexivity.
  apply andb_prop in Hall as [Hc Hall].
  rewrite (hex_value_case_char _ _ Hc).
  destruct (EthUtils.hex_value c) as [v|]; [|reflexivity].
  simpl. apply IH; [lia | assumption].
Qed.

Lemma int16_from_zeros k s :
  int16_from 0 (repeat_char "0" k +:+ s) = int16_from 0 s.
Proof. induction k as [|k IH]; [reflexivity|]. exact IH. Qed.

Lemma int16_nonempty s :
  (1 <= String.length s)%nat -> int16 s = int16_from 0 s.
Proof. destruct s; simpl; [lia | reflexivity]. Qed.

Lemma num_to_address_nonneg n a : num_to_address n = Some a -> 0 <= n < 2 ^ 160.
Proof.
  intros Ha. destruct (Z_lt_le_dec n 0) as [Hneg|Hpos].
  - rewrite num_to_address_negative in Ha by assumption. discriminate.
  - destruct (Z_lt_le_dec n (2 ^ 160)) as [Hlt|Hge]; [lia|].
    rewrite num_to_address_too_long in Ha; [discriminate | assumption |].
    apply hex_digits_long. change (16 ^ 40) with (2 ^ 160). assumption.
Qed.

(** X1: [num_to_address n] returns an address exactly when [n] is
    representable in 160 bits, [0 <= n < 2^160]; every other integer
    raises. *)
Theorem num_to_address_domain (n : Z) :
  is_Some (num_to_address n) <-> 0 <= n < 2 ^ 160.
Proof.
  split.
  - intros [a Ha]. now apply (num_to_address_nonneg n a).
  - intros Hn. rewrite num_to_address_in_range by assumption. eauto.
Qed.

Lemma num_to_address_denotes (n : Z) (a : string) :
  num_to_address n = Some a ->
  int16 (drop_str 2 a) = Some n
  /\ int16 (drop_str 2 (lower a)) = Some n.
Proof.
  intros Ha. pose proof (num_to_address_nonneg n a Ha) as Hn.
  rewrite num_to_address_in_range in Ha by assumption.
  injection Ha as <-.
  set (padded := zfill 40 (hex_digits n)).
  set (hash := bytes_hex (EthUtils.keccak_text padded)).
  assert (Hall : EthUtils.all_str lower_hex_digit padded = true)
    by (apply padded_lower_hex; lia).
  assert (Hlen : String.length padded = 40%nat).
  { unfold padded. rewrite length_padded by lia.
    pose proof (hex_digits_short n). change (16 ^ 40) with (2 ^ 160) in *. lia. }
  assert (Hle : (String.length padded <= String.length hash)%nat).
  { unfold hash. rewrite length_bytes_hex. unfold EthUtils.keccak_text.
    rewrite length_keccak256. lia. }
  assert (Hpadded : int16_from 0 padded = Some n).
  { unfold padded. rewrite zfill_hex
      by (apply lower_hex_all_hex, hex_digits_lower_hex; lia).
    rewrite int16_from_zeros, <- int16_nonempty by apply hex_digits_nonempty.
    apply int16_hex_digits. lia. }
  split.
  - change (drop_str 2 ("0x" +:+ casing padded hash)) with (casing padded hash).
    rewrite int16_nonempty by (rewrite length_casing; lia).
    now rewrite int16_from_casing.
  - rewrite lower_prefixed, lower_casing by assumption.
    change (drop_str 2 ("0x" +:+ padded)) with padded.
    rewrite int16_nonempty by lia. exact Hpadded.
Qed.

(** X2: the address [num_to_address] returns denotes its argument: read as
    a hexadecimal number, the 40 characters after the [0x] give [n] back,
    whatever case the checksum gave to the letters. *)
Theorem num_to_address_round_trip (n : Z) (a : string) :
  num_to_address n = Some a ->
  int16 (drop_str 2 a) = Some n
  /\ int16 (drop_str 2 (lower a)) = Some n.
Proof. apply num_to_address_denotes. Qed.

Lemma num_to_address_round_trip_witness :
  int16 (drop_str 2 "0x5aAeb6053F3E94C9b9A09f33669435E7Ef1BeAed")
  = Some 0x5aaeb6053f3e94c9b9a09f33669435e7ef1beaed
  /\ int16 (drop_str 2 (lower "0x5aAeb6053F3E94C9b9A09f33669435E7Ef1BeAed"))
     = Some 0x5aaeb6053f3e94c9b9a09f33669435e7ef1beaed.
Proof.
  apply (num_to_address_round_trip 0x5aaeb6053f3e94c9b9a09f33669435e7ef1beaed).
  vm_compute. reflexivity.
Defined.

(** X3: [num_to_address] is injective: two integers with the same address
    are equal. *)
Theorem num_to_address_injective (n m : Z) (a : string) :
  num_to_address n = Some a -> num_to_address m = Some a -> n = m.
Proof.
  intros Hn Hm.
  destruct (num_to_address_denotes n a Hn) as [Hn' _].
  destruct (num_to_address_denotes m a Hm) as [Hm' _].
  congruence.
Qed.

Lemma num_to_address_injective_witness : 2050 = 2050.
Proof.
  apply (num_to_address_injective 2050 2050
           "0x0000000000000000000000000000000000000802");
    vm_compute; reflexivity.
Defined.

(** ** The encoded input as call data *)

Lemma encode_input_parts name types args :
  (forall out,
     encode_input name types args = Some out ->
     exists encoded,
       EthAbi.encode types args = Some encoded
       /\ take 4 out = func_selector name
       /\ drop 4 out = encoded
       /\ length out = (4 + length encoded)%nat)
  /\ (encode_input name types args = None
      <-> EthAbi.encode types args = None).
Proof.
  assert (Hsel : length (func_selector name) = 4%nat).
  { unfold func_selector, EthUtils.keccak_text.
    now rewrite length_take, length_keccak256. }
  unfold encode_input. destruct (EthAbi.encode types args) as [encoded|];
    cbn [mbind option_bind].
  - split; [|split; discriminate].
    intros out [= <-]. exists encoded. repeat split.
    + now rewrite take_app_length' by (symmetry; exact Hsel).
    + now rewrite drop_app_length' by (symmetry; exact Hsel).
    + rewrite length_app. lia.
  - split; [discriminate | easy].
Qed.

(** X4: when [encode_input] returns, its result is the four bytes of the
    selector followed by the encoding of the arguments, so the first four
    bytes of the call data identify the function; and it raises exactly
    when the encoding of the arguments raises. *)
Theorem encode_input_framing name types args :
  (forall out,
     encode_input name types args = Some out ->
     exists encoded,
       EthAbi.encode types args = Some encoded
       /\ take 4 out = func_selector name
       /\ drop 4 out = encoded
       /\ length out = (4 + length encoded)%nat)
  /\ (encode_input name types args = None
      <-> EthAbi.encode types args = None).
Proof. apply encode_input_parts. Qed.

Lemma encode_input_framing_witness :
  let out :=
    func_selector "baz(uint32,bool)"
      ++ EthAbi.encode_uint_256 69 ++ EthAbi.encode_uint_256 1 in
  exists encoded,
    EthAbi.encode [EthAbi.TUint 32; EthAbi.TBool]
      [EthAbi.VInt 69; EthAbi.VBool true] = Some encoded
    /\ take 4 out = func_selector "baz(uint32,bool)"
    /\ drop 4 out = encoded
    /\ length out = (4 + length encoded)%nat.
Proof.
  apply (proj1 (encode_input_framing "baz(uint32,bool)"
                  [EthAbi.TUint 32; EthAbi.TBool]
                  [EthAbi.VInt 69; EthAbi.VBool true])).
  vm_compute. reflexivity.
Defined.

(** X5: when the numbers of types and of arguments differ, [encode_input]
    raises instead of encoding the arguments it has. *)
Theorem encode_input_arity name types args :
  length types <> length args -> encode_input name types args = None.
Proof.
  intros Hlen. apply encode_input_parts.
  unfold EthAbi.encode. cbn [EthAbi.encode_value].
  match goal with
  | |- ?chunks ≫= _ = None => assert (Hnone : chunks = None)
  end; [|now rewrite Hnone].
  revert args Hlen.
  induction types as [|t types IH]; intros [|v args] Hlen; cbn in Hlen;
    try congruence; try reflexivity.
  destruct (EthAbi.encode_value t v) as [e|]; [|reflexivity].
  cbn [mbind option_bind]. rewrite IH by congruence. reflexivity.
Qed.

Lemma encode_input_arity_witness :
  encode_input "f(uint256)" [EthAbi.TUint 256] [] = None.
Proof. apply encode_input_arity. discriminate. Defined.

(** ** Word alignment of the encoded arguments *)

Lemma aligned_nil : aligned [].
Proof. reflexivity. Qed.

Lemma aligned_app b1 b2 : aligned b1 -> aligned b2 -> aligned (b1 ++ b2).
Proof.
  unfold aligned. intros H1 H2. rewrite length_app.
  rewrite Nat.Div0.add_mod, H1, H2. reflexivity.
Qed.

Lemma length_encode_uint_256 v : length (EthAbi.encode_uint_256 v) = 32%nat.
Proof. unfold EthAbi.encode_uint_256. now rewrite length_map, length_seq. Qed.

Lemma aligned_uint_256 v : aligned (EthAbi.encode_uint_256 v).
Proof. unfold aligned. now rewrite length_encode_uint_256. Qed.

Lemma aligned_zpad_left b :
  (length b <= 32)%nat -> aligned (EthAbi.zpad_left 32 b).
Proof.
  intros Hb. unfold aligned, EthAbi.zpad_left.
  rewrite length_app, repeat_length.
  replace (32 - length b + length b)%nat with 32%nat by lia. reflexivity.
Qed.

Lemma aligned_zpad_right b :
  (length b <= 32)%nat -> aligned (EthAbi.zpad_right 32 b).
Proof.
  intros Hb. unfold aligned, EthAbi.zpad_right.
  rewrite length_app, repeat_length.
  replace (length b + (32 - length b))%nat with 32%nat by lia. reflexivity.
Qed.

Lemma ceil32_ge n : (n <= EthAbi.ceil32 n)%nat.
Proof.
  unfold EthAbi.ceil32.
  pose proof (Nat.div_mod (n + 31) 32 ltac:(lia)) as Hdm.
  pose proof (Nat.mod_upper_bound (n + 31) 32 ltac:(lia)). lia.
Qed.

Lemma aligned_bytestring b : aligned (EthAbi.encode_bytestring b).
Proof.
  unfold EthAbi.encode_bytestring. apply aligned_app; [apply aligned_uint_256|].
  unfold aligned, EthAbi.zpad_right. rewrite length_app, repeat_length.
  pose proof (ceil32_ge (length b)).
  replace (length b + (EthAbi.ceil32 (length b) - length b))%nat
    with (EthAbi.ceil32 (length b)) by lia.
  unfold EthAbi.ceil32. apply Nat.Div0.mod_mul.
Qed.

Lemma length_decode_hex_bounded n : forall s b,
  (String.length s <= n)%nat ->
  EthAbi.decode_hex s = Some b -> String.length s = (2 * length b)%nat.
Proof.
  induction n as [|n IH]; intros [|hi [|lo s]] b Hn; cbn in Hn; try lia;
    cbn [EthAbi.decode_hex]; try discriminate;
    try (intros [= <-]; reflexivity).
  destruct (EthUtils.hex_value hi) as [h|]; [|discriminate].
  destruct (EthUtils.hex_value lo) as [l|]; [|discriminate].
  cbn [mbind option_bind].
  destruct (EthAbi.decode_hex s) as [b'|] eqn:Hs; [|discriminate].
  intros [= <-]. cbn [String.length length].
  rewrite (IH s b'); [lia | lia | assumption].
Qed.

Lemma length_decode_hex s b :
  EthAbi.decode_hex s = Some b -> String.length s = (2 * length b)%nat.
Proof. now apply (length_decode_hex_bounded (String.length s)). Qed.

Lemma aligned_head_chunks head_len chunks : forall offset,
  Forall (fun c : bool * bytes => aligned (snd c)) chunks ->
  aligned (EthAbi.head_chunks head_len offset chunks).
Proof.
  induction chunks as [|[[|] e] chunks IH]; intros offset Hall;
    cbn [EthAbi.head_chunks]; [apply aligned_nil| |];
    inversion_clear Hall as [|? ? He Hrest];
    apply aligned_app; auto using aligned_uint_256.
Qed.

Lemma aligned_tail_chunks chunks :
  Forall (fun c : bool * bytes => aligned (snd c)) chunks ->
  aligned (EthAbi.tail_chunks chunks).
Proof.
  unfold EthAbi.tail_chunks.
  induction 1 as [|[[|] e] chunks He Hrest IH]; cbn; [apply aligned_nil| |];
    auto using aligned_app.
Qed.

Lemma aligned_encode_chunks chunks :
  Forall (fun c : bool * bytes => aligned (snd c)) chunks ->
  aligned (EthAbi.encode_chunks chunks).
Proof.
  intros Hall. unfold EthAbi.encode_chunks.
  auto using aligned_app, aligned_head_chunks, aligned_tail_chunks.
Qed.

(** Induction over the types, with the components of a tuple. *)
Lemma abi_type_nested_ind (P : EthAbi.abi_type -> Prop) :
  (forall bits, P (EthAbi.TUint bits)) ->
  (forall bits, P (EthAbi.TInt bits)) ->
  P EthAbi.TBool ->
  P EthAbi.TAddress ->
  (forall size, P (EthAbi.TBytesN size)) ->
  P EthAbi.TBytes ->
  P EthAbi.TString ->
  (forall item, P item -> P (EthAbi.TArray item)) ->
  (forall item size, P item -> P (EthAbi.TFixedArray item size)) ->
  (forall components, Forall P components -> P (EthAbi.TTuple components)) ->
  forall t, P t.
Proof.
  intros Huint Hint Hbool Haddr Hbytesn Hbytes Hstring Harray Hfixed Htuple.
  fix IH 1. intros [bits|bits| | |size| | |item|item size|components];
    [ apply Huint | apply Hint | exact Hbool | exact Haddr | apply Hbytesn
    | exact Hbytes | exact Hstring | apply Harray, IH | apply Hfixed, IH | ].
  apply Htuple. induction components as [|t components IHc]; constructor.
  - apply IH.
  - exact IHc.
Qed.

Lemma aligned_items (item : EthAbi.abi_type) items encoded :
  (forall v e, EthAbi.encode_value item v = Some e -> aligned e) ->
  mapM (EthAbi.encode_value item) items = Some encoded ->
  Forall (fun c : bool * bytes => aligned (snd c))
    (map (pair (EthAbi.is_dynamic item)) encoded).
Proof.
  intros Hitem Hmap. apply mapM_Some_1 in Hmap.
  induction Hmap as [|v e items encoded He _ IH]; cbn; constructor; eauto.
Qed.

Lemma some_eq_elim {A : Type} (P : A -> Prop) (x : A) :
  P x -> forall y, Some x = Some y -> P y.
Proof. intros Hx y Heq. now injection Heq as <-. Qed.

Ltac some_eq :=
  match goal with
  | |- Some _ = Some ?e -> _ => revert e; apply some_eq_elim
  end.

Lemma encode_value_aligned t : forall v e,
  EthAbi.encode_value t v = Some e -> aligned e.
Proof.
  induction t as [bits|bits| | |size| | |item IH|item size IH|components IH]
    using abi_type_nested_ind; intros v e; destruct v as [z|b|b|s|items];
    cbn [EthAbi.encode_value]; try discriminate.
  - destruct (_ && _); [|discriminate]. some_eq. apply aligned_uint_256.
  - destruct (_ && _); [|discriminate]. some_eq. apply aligned_uint_256.
  - some_eq. apply aligned_uint_256.
  - destruct (length b =? 20)%nat eqn:Hlen; [|discriminate].
    some_eq. apply aligned_zpad_left.
    apply Nat.eqb_eq in Hlen. lia.
  - destruct (EthUtils.is_address s) eqn:Haddr; [|discriminate].
    destruct (EthAbi.decode_hex _) as [b|] eqn:Hdec; [|discriminate].
    cbn [fmap option_fmap option_map]. some_eq. apply aligned_zpad_left.
    apply length_decode_hex in Hdec.
    unfold EthUtils.is_address, EthUtils.is_hex_address in Haddr.
    apply andb_prop in Haddr as [Hlen%Nat.eqb_eq _]. lia.
  - destruct (_ && _) eqn:Hsize; [|discriminate]. some_eq.
    apply aligned_zpad_right.
    apply andb_prop in Hsize as [[_ H32%Z.leb_le]%andb_prop Hb%Z.leb_le]. lia.
  - some_eq. apply aligned_bytestring.
  - some_eq. apply aligned_bytestring.
  - destruct (mapM _ items) as [encoded|] eqn:Hmap; [|discriminate].
    cbn [mbind option_bind]. some_eq.
    apply aligned_app; [apply aligned_uint_256|].
    eapply aligned_encode_chunks, aligned_items; eauto.
  - destruct (length items =? size)%nat; [|discriminate].
    destruct (mapM _ items) as [encoded|] eqn:Hmap; [|discriminate].
    cbn [mbind option_bind]. some_eq.
    eapply aligned_encode_chunks, aligned_items; eauto.
  - match goal with
    | |- ?chunks ≫= _ = _ -> _ =>
        assert (Hchunks : forall cs, chunks = Some cs ->
          Forall (fun c : bool * bytes => aligned (snd c)) cs)
    end.
    { revert items.
      induction IH as [|t components Ht _ IHc]; intros [|v items] cs;
        try discriminate.
      - some_eq. constructor.
      - destruct (EthAbi.encode_value t v) as [e'|] eqn:He; [|discriminate].
        cbn [mbind option_bind].
        match goal with
        | |- ?rest ≫= _ = _ -> _ => destruct rest as [r|] eqn:Hr
        end; [|discriminate].
        cbn [mbind option_bind]. some_eq. constructor; [now apply (Ht v)|].
        now apply (IHc items). }
    match goal with
    | |- ?chunks ≫= _ = _ -> _ => destruct chunks as [cs|]
    end; [|discriminate].
    cbn [mbind option_bind]. some_eq. now apply aligned_encode_chunks, Hchunks.
Qed.

(** X6: the arguments are encoded in whole 32-byte words, so whenever
    [encode_input] returns, the call data is the 4-byte selector followed by
    a multiple of 32 bytes. *)
Theorem encode_input_words name types args out :
  encode_input name types args = Some out ->
  (length out mod 32 = 4)%nat.
Proof.
  intros Hout.
  destruct (proj1 (encode_input_parts name types args) out Hout)
    as (encoded & Henc & _ & _ & Hlen).
  apply encode_value_aligned in Henc. unfold aligned in Henc.
  rewrite Hlen, Nat.Div0.add_mod, Henc. reflexivity.
Qed.

Lemma encode_input_words_witness :
  (length
     (func_selector "sam(bytes,bool,uint256[])"
        ++ default []
             (EthAbi.encode
                [EthAbi.TBytes; EthAbi.TBool; EthAbi.TArray (EthAbi.TUint 256)]
                [EthAbi.VBytes (encode_utf8 "dave"); EthAbi.VBool true;
                 EthAbi.VList [EthAbi.VInt 1; EthAbi.VInt 2; EthAbi.VInt 3]]))
   mod 32 = 4)%nat.
Proof.
  apply (encode_input_words "sam(bytes,bool,uint256[])"
           [EthAbi.TBytes; EthAbi.TBool; EthAbi.TArray (EthAbi.TUint 256)]
           [EthAbi.VBytes (encode_utf8 "dave"); EthAbi.VBool true;
            EthAbi.VList [EthAbi.VInt 1; EthAbi.VInt 2; EthAbi.VInt 3]]).
  vm_compute. reflexivity.
Defined.

(** * Further properties of the runs *)

Lemma byte_of_Z_of_byte b : byte_of_Z (Z_of_byte b) = b.
Proof.
  pose proof (Z_of_byte_range b) as Hb. unfold byte_of_Z.
  rewrite Z.mod_small by assumption. unfold Z_of_byte.
  now rewrite N2Z.id, Byte.of_to_N.
Qed.

(** [bytes.fromhex(b.hex())] is [b]. *)
Lemma decode_hex_bytes_hex b : EthAbi.decode_hex (bytes_hex b) = Some b.
Proof.
  induction b as [|x b IH]; [reflexivity|].
  pose proof (Z_of_byte_range x) as Hx.
  assert (Hhi : 0 <= Z_of_byte x / 16 < 16)
    by (split; [apply Z.div_pos; lia | apply Z.div_lt_upper_bound; lia]).
  assert (Hlo : 0 <= Z_of_byte x mod 16 < 16) by (apply Z.mod_pos_bound; lia).
  cbn [bytes_hex EthAbi.decode_hex].
  rewrite (hex_value_hex_char _ Hhi), (hex_value_hex_char _ Hlo), IH.
  cbn [mbind option_bind]. do 2 f_equal.
  rewrite <- (byte_of_Z_of_byte x) at 3. f_equal.
  pose proof (Z.div_mod (Z_of_byte x) 16). lia.
Qed.

Lemma bytes_hex_inj b1 b2 : bytes_hex b1 = bytes_hex b2 -> b1 = b2.
Proof.
  intros Heq. apply (f_equal EthAbi.decode_hex) in Heq.
  rewrite !decode_hex_bytes_hex in Heq. congruence.
Qed.

(** X7: the call descriptor loses nothing of its three inputs: the source
    and the input fields decode from hex back to the public key and to the
    input bytes, so two descriptors are equal only for the same public key,
    contract address and input. *)
Theorem call_descriptor_lossless keypair contract_addr data :
  let d := Substrate.call_descriptor keypair contract_addr data in
  let args := Substrate.py_get "call_args" d in
  (exists source hex_input,
     args ≫= Substrate.py_get "source" = Some (Substrate.PStr source)
     /\ args ≫= Substrate.py_get "input" = Some (Substrate.PStr hex_input)
     /\ EthAbi.decode_hex (EthUtils.remove_0x_prefix source)
        = Some (Substrate.public_key keypair)
     /\ EthAbi.decode_hex hex_input = Some data)
  /\ (forall keypair' contract_addr' data',
        Substrate.call_descriptor keypair' contract_addr' data' = d ->
        Substrate.public_key keypair' = Substrate.public_key keypair
        /\ contract_addr' = contract_addr
        /\ data' = data).
Proof.
  split.
  - eexists _, _. split; [reflexivity|]. split; [reflexivity|].
    rewrite remove_add_prefix. split; apply decode_hex_bytes_hex.
  - intros keypair' contract_addr' data' Heq.
    unfold Substrate.call_descriptor in Heq.
    injection Heq as Hsource Htarget Hinput.
    repeat split; auto using bytes_hex_inj.
Qed.

Section ClientFurther.

Import Substrate.

Context {Metadata ScaleObject Runtime Extrinsic Receipt Env : Type}.

Abbreviation op :=
  (Substrate.op Metadata ScaleObject Runtime Extrinsic Receipt).
Abbreviation event :=
  (Substrate.event Metadata ScaleObject Runtime Extrinsic Receipt).

Variable handler : forall X : Type, op X -> Env -> option X * Env.

(** X8: the operations of [call_contract] come in one order: the metadata,
    the codec object, the encoding, the print; a run that fails stops at the
    operation that raised, and a run that returns has performed all four.
    The codec object is created on the interface as [get_metadata] left it,
    with the metadata [get_metadata] returned. *)
Theorem call_contract_order interface keypair contract_addr data env :
  let p := call_contract interface keypair contract_addr data in
  map event_name (trace handler p env)
    `prefix_of` ["get_metadata"; "create_scale_object"; "encode"; "print"]
  /\ (is_Some (result handler p env) ->
      map event_name (trace handler p env)
      = ["get_metadata"; "create_scale_object"; "encode"; "print"])
  /\ (forall self type_string meta,
        In (Event (create_scale_object self type_string meta))
          (trace handler p env) ->
        fst (handler _ (get_metadata interface) env) = Some (meta, self)).
Proof.
  intros p. unfold trace, result, p. rewrite run_call_contract.
  destruct (handler _ (get_metadata interface) env) as [[[meta i1]|] env1].
  2: { split; [now exists ["create_scale_object"; "encode"; "print"]|].
       split; [now intros []|].
       intros self type_string meta' [Hin|[]]. discriminate. }
  assert (Hcreate : forall self type_string meta' (t : list event),
    In (Event (create_scale_object self type_string meta'))
      (Event (get_metadata interface)
         :: Event (create_scale_object i1 "Call" meta) :: t) ->
    (forall e, In e t -> event_name e <> "create_scale_object") ->
    Some (meta, i1) = Some (meta', self)).
  { intros self type_string meta' t [Hin|[Hin|Hin]] Ht.
    - discriminate.
    - inversion Hin. now subst.
    - now destruct (Ht _ Hin). }
  destruct (handler _ (create_scale_object i1 "Call" meta) env1)
    as [[[obj i2]|] env2].
  2: { split; [now exists ["encode"; "print"]|]. split; [now intros []|].
       intros self type_string meta' Hin. cbn [fst].
       apply (Hcreate self type_string meta' [] Hin). now intros e []. }
  destruct (handler _ (scale_encode obj _) env2) as [[cc|] env3].
  2: { split; [now exists ["print"]|]. split; [now intros []|].
       intros self type_string meta' Hin. cbn [fst].
       apply (Hcreate self type_string meta' _ Hin).
       intros e [<-|[]]. discriminate. }
  split; [now exists []|]. split; [reflexivity|].
  intros self type_string meta' Hin. cbn [fst].
  apply (Hcreate self type_string meta' _ Hin).
  intros e [<-|[<-|[]]]; discriminate.
Qed.

(** X9: [call_contract] prints at most once, only what the encoder
    returned for the descriptor, and a run that printed nothing has
    raised. *)
Theorem call_contract_prints_encoding
    interface keypair contract_addr data env :
  let p := call_contract interface keypair contract_addr data in
  let d := call_descriptor keypair contract_addr data in
  (length (stdout (trace handler p env)) <= 1)%nat
  /\ (forall cc,
        In cc (stdout (trace handler p env)) ->
        exists obj env',
          fst (handler _ (scale_encode obj d) env') = Some cc)
  /\ (stdout (trace handler p env) = [] -> result handler p env = None).
Proof.
  intros p d. unfold trace, result, p. rewrite run_call_contract. fold d.
  destruct (handler _ (get_metadata interface) env) as [[[meta i1]|] env1];
    [|cbn; split; [lia | split; [now intros cc [] | reflexivity]]].
  destruct (handler _ (create_scale_object i1 "Call" meta) env1)
    as [[[obj i2]|] env2];
    [|cbn; split; [lia | split; [now intros cc [] | reflexivity]]].
  destruct (handler _ (scale_encode obj d) env2) as [[cc|] env3] eqn:Henc;
    [|cbn; split; [lia | split; [now intros cc [] | reflexivity]]].
  cbn. split; [lia|]. split; [|discriminate].
  intros cc' [<-|[]]. exists obj, env2. now rewrite Henc.
Qed.

(** X10: [init_interface] performs the connection, [init_runtime] and
    [update_type_registry], in this order and nothing else, and stops at
    the first that raises.  It returns exactly when all three answer, and
    then it returns the interface [update_type_registry] answered, called
    with the dict of overrides on the interface [init_runtime] answered,
    itself called on the interface of the connection. *)
Theorem init_interface_success env :
  map event_name (trace handler init_interface env)
    `prefix_of` ["SubstrateInterface"; "init_runtime";
                 "update_type_registry"]
  /\ (forall interface,
        result handler init_interface env = Some interface
        <-> exists s0 env1 s1 env2,
              handler _ (new_interface "ws://127.0.0.1:9944" true) env
              = (Some s0, env1)
              /\ handler _ (init_runtime s0) env1 = (Some s1, env2)
              /\ fst (handler _
                        (update_type_registry s1 type_registry_overrides)
                        env2)
                 = Some interface)
  /\ (is_Some (result handler init_interface env) ->
      map event_name (trace handler init_interface env)
      = ["SubstrateInterface"; "init_runtime"; "update_type_registry"]).
Proof.
  unfold trace, result. rewrite run_init_interface.
  destruct (handler _ (new_interface _ _) env) as [[s0|] env1].
  2: { split; [now exists ["init_runtime"; "update_type_registry"]|].
       split; [|now intros []]. intros interface.
       split; [discriminate | now intros (? & ? & ? & ? & [=] & _)]. }
  destruct (handler _ (init_runtime s0) env1) as [[s1|] env2] eqn:Hinit.
  2: { split; [now exists ["update_type_registry"]|].
       split; [|now intros []]. intros interface.
       split; [discriminate|].
       intros (? & ? & ? & ? & [= <- <-] & Hs1 & _).
       rewrite Hinit in Hs1. discriminate. }
  split; [now exists []|]. split; [|reflexivity].
  intros interface. cbn [snd]. split.
  - intros Hres. now exists s0, env1, s1, env2.
  - intros (? & ? & ? & ? & [= <- <-] & Hs1 & Hres).
    rewrite Hinit in Hs1. now injection Hs1 as <- <-.
Qed.

(** X12: the operations of the whole script come in one order: the
    connection, [init_runtime], [update_type_registry], the keypair, then
    the four of [call_contract]; a run that returns has performed these
    eight and printed one value; in every run, at most one value is printed
    and no operation follows one that raised. *)
Theorem script_order env :
  map event_name (trace handler script env)
    `prefix_of` ["SubstrateInterface"; "init_runtime";
                 "update_type_registry"; "create_from_private_key";
                 "get_metadata"; "create_scale_object"; "encode"; "print"]
  /\ (is_Some (result handler script env) ->
      map event_name (trace handler script env)
      = ["SubstrateInterface"; "init_runtime"; "update_type_registry";
         "create_from_private_key"; "get_metadata"; "create_scale_object";
         "encode"; "print"]
      /\ length (stdout (trace handler script env)) = 1%nat)
  /\ (length (stdout (trace handler script env)) <= 1)%nat.
Proof.
  unfold trace, result. rewrite run_script, run_init_interface.
  destruct (handler _ (new_interface _ _) env) as [[s0|] env1];
    [|split; [now eexists | split; [now intros [] | cbn; lia]]].
  destruct (handler _ (init_runtime s0) env1) as [[s1|] env2];
    [|split; [now eexists | split; [now intros [] | cbn; lia]]].
  destruct (handler _ (update_type_registry s1 _) env2) as [[s2|] env2'];
    [|split; [now eexists | split; [now intros [] | cbn; lia]]].
  cbn [fst snd].
  destruct (handler _ (create_from_private_key _ _) env2') as [[kp|] env3];
    [|split; [now eexists | split; [now intros [] | cbn; lia]]].
  rewrite run_call_contract.
  destruct (handler _ (get_metadata _) env3) as [[[meta i1]|] env4];
    [|split; [now eexists | split; [now intros [] | cbn; lia]]].
  destruct (handler _ (create_scale_object i1 "Call" meta) env4)
    as [[[obj i2]|] env5];
    [|split; [now eexists | split; [now intros [] | cbn; lia]]].
  destruct (handler _ (scale_encode obj _) env5) as [[cc|] env6];
    [|split; [now eexists | split; [now intros [] | cbn; lia]]].
  split; [now exists [] | split; [now intros _ | cbn; lia]].
Qed.

(** X13: whatever the script hands to the encoder is the descriptor of a
    call to the address of 2050 with the selector of [name()] as input,
    from the keypair the library made of the private key. *)
Theorem script_encodes_name_call env :
  Forall (fun value =>
            exists keypair env',
              fst (handler _ (create_from_private_key alith_private_key
                                ECDSA) env') = Some keypair
              /\ value
                 = call_descriptor keypair
                     "0x0000000000000000000000000000000000000802"
                     (func_selector "name()"))
    (encoded_values (trace handler script env)).
Proof.
  rewrite func_selector_name.
  unfold trace. rewrite run_script, run_init_interface.
  destruct (handler _ (new_interface _ _) env) as [[s0|] env1];
    [|now constructor].
  destruct (handler _ (init_runtime s0) env1) as [[s1|] env2];
    [|now constructor].
  destruct (handler _ (update_type_registry s1 _) env2) as [[s2|] env2'];
    [|now constructor].
  cbn [fst snd].
  destruct (handler _ (create_from_private_key _ _) env2')
    as [[kp|] env3] eqn:Hkey; [|now constructor].
  rewrite run_call_contract.
  destruct (handler _ (get_metadata _) env3) as [[[meta i1]|] env4];
    [|now constructor].
  destruct (handler _ (create_scale_object i1 "Call" meta) env4)
    as [[[obj i2]|] env5]; [|now constructor].
  assert (Hkp : exists keypair env',
    fst (handler _ (create_from_private_key alith_private_key ECDSA) env')
    = Some keypair
    /\ call_descriptor kp "0x0000000000000000000000000000000000000802"
         [x06; xfd; xde; x03]
       = call_descriptor keypair "0x0000000000000000000000000000000000000802"
           [x06; xfd; xde; x03])
    by (exists kp, env2'; now rewrite Hkey).
  destruct (handler _ (scale_encode obj _) env5) as [[cc|] env6];
    cbn; now repeat constructor.
Qed.

End ClientFurther.

Import Substrate.

Lemma call_contract_order_witness :
  map event_name (trace Mock.handler Mock.call_name 0%nat)
  = ["get_metadata"; "create_scale_object"; "encode"; "print"].
Proof.
  apply (proj1 (proj2 (call_contract_order Mock.handler Mock.interface
           Mock.keypair "0x0000000000000000000000000000000000000802"
           [x06; xfd; xde; x03] 0%nat))).
  exact mock_call_returns.
Defined.

Lemma call_contract_prints_encoding_witness :
  exists obj env',
    fst (Mock.handler _
           (scale_encode obj
              (call_descriptor Mock.keypair
                 "0x0000000000000000000000000000000000000802"
                 [x06; xfd; xde; x03])) env')
    = Some (Mock.alith_address
              ++ default [] (EthAbi.decode_hex
                   "0000000000000000000000000000000000000802")
              ++ [x06; xfd; xde; x03]).
Proof.
  apply (proj1 (proj2 (call_contract_prints_encoding Mock.handler
           Mock.interface Mock.keypair
           "0x0000000000000000000000000000000000000802"
           [x06; xfd; xde; x03] 0%nat))).
  vm_compute. auto.
Defined.

Lemma script_order_witness :
  map event_name (trace Mock.handler script 0%nat)
  = ["SubstrateInterface"; "init_runtime"; "update_type_registry";
     "create_from_private_key"; "get_metadata"; "create_scale_object";
     "encode"; "print"]
  /\ length (stdout (trace Mock.handler script 0%nat)) = 1%nat.
Proof.
  apply (proj1 (proj2 (script_order Mock.handler 0%nat))).
  vm_compute. eauto.
Defined.
